(** * Session lifecycle and API gateway of the appointment-booking client

    A shallow embedding of the session store ([AuthProvider]), the API
    gateway ([apiRequest]), the transient message hook ([useMessages]) and
    the registration submit handler of [src/App.js], with the properties the
    specification states about them.

    Conventions of the embedding:
    - JavaScript values coming out of [JSON.parse] are the inductive
      [JSValue]; numbers are the integers (exact in IEEE doubles below 2^53,
      which covers JWT [exp] claims, HTTP statuses and [Date.now()]) plus
      [NaN];
    - a computation that may throw returns a [Completion]; code that also
      mutates browser or component state runs in the monad [Eff];
    - [localStorage] is a finite map from keys to strings;
    - what the browser provides and the repository does not define
      ([JSON.parse], string-to-number coercion, the build-time environment)
      is the interface [Host]; the reply of the network to a [fetch] is an
      argument of the call. *)

From Stdlib Require Import Ascii.
From stdpp Require Import gmap strings list pretty.

Local Open Scope Z_scope.
Local Set Warnings "-register-all".

(** ** JavaScript values, errors and completions *)

Module JS.

Inductive JSNumber : Type :=
| NaN
| Num (z : Z).

Inductive JSValue : Type :=
| JUndefined
| JNull
| JBool (b : bool)
| JNumber (n : JSNumber)
| JString (s : string)
| JArray (elems : list JSValue)
| JObject (props : list (string * JSValue)).

(** An [Error] object (or a [DOMException]): all the code inspects is
    [name] and [message]. *)
Record JSError : Type := mkError { name : string; message : string }.

Inductive Completion (A : Type) : Type :=
| Normal (a : A)
| Throw (e : JSError).
Arguments Normal {A} a.
Arguments Throw {A} e.

#[global] Instance JSNumber_eq_dec : EqDecision JSNumber.
Proof. solve_decision. Defined.

#[global] Instance JSError_eq_dec : EqDecision JSError.
Proof. solve_decision. Defined.

#[global] Instance Completion_ret : MRet Completion := fun A a => Normal a.

#[global] Instance Completion_bind : MBind Completion :=
  fun A B f c => match c with Normal a => f a | Throw e => Throw e end.

(** [ToBoolean]: the falsy values are [undefined], [null], [false], [0],
    [NaN] and the empty string. *)
Definition truthy (v : JSValue) : bool :=
  match v with
  | JUndefined | JNull => false
  | JBool b => b
  | JNumber NaN => false
  | JNumber (Num z) => negb (z =? 0)
  | JString s => negb (String.eqb s "")
  | JArray _ | JObject _ => true
  end.

(** Truthiness of what [localStorage.getItem] returns: [null] (absent key)
    and the empty string are falsy. *)
Definition truthy_item (o : option string) : bool :=
  match o with
  | Some s => negb (String.eqb s "")
  | None => false
  end.

Definition number_to_string (n : JSNumber) : string :=
  match n with
  | NaN => "NaN"
  | Num z => pretty z
  end.

(** [Array.prototype.join] with separator [","]. *)
Fixpoint join_comma (l : list string) : string :=
  match l with
  | [] => ""
  | [s] => s
  | s :: rest => s +:+ "," +:+ join_comma rest
  end.

(** [ToString] on the values [JSON.parse] produces. *)
Fixpoint ToString (v : JSValue) : string :=
  match v with
  | JUndefined => "undefined"
  | JNull => "null"
  | JBool true => "true"
  | JBool false => "false"
  | JNumber n => number_to_string n
  | JString s => s
  | JArray elems =>
      join_comma
        (map (fun x => match x with
                       | JUndefined | JNull => ""
                       | _ => ToString x
                       end) elems)
  | JObject _ => "[object Object]"
  end.

(** [new Error(m)] *)
Definition new_Error (m : JSValue) : JSError :=
  {| name := "Error";
     message := match m with JUndefined => "" | _ => ToString m end |}.

Definition lookup_prop (k : string) (props : list (string * JSValue)) : JSValue :=
  match List.find (fun p => String.eqb (fst p) k) props with
  | Some p => snd p
  | None => JUndefined
  end.

(** The [TypeError] of a property read on [null] or [undefined] (the
    wording is V8's). *)
Definition nullish_read_error (v : JSValue) (k : string) : JSError :=
  {| name := "TypeError";
     message := "Cannot read properties of " +:+ ToString v
                +:+ " (reading '" +:+ k +:+ "')" |}.

(** [v.k] for a key that no built-in prototype defines (here ["exp"],
    ["error"] and ["message"]): an own property of an object, [undefined]
    on any other non-nullish value, a [TypeError] on [null] and
    [undefined]. *)
Definition get_prop (v : JSValue) (k : string) : Completion JSValue :=
  match v with
  | JUndefined | JNull => Throw (nullish_read_error v k)
  | JObject props => Normal (lookup_prop k props)
  | _ => Normal JUndefined
  end.

(** [v?.k] *)
Definition get_prop_opt (v : JSValue) (k : string) : Completion JSValue :=
  match v with
  | JUndefined | JNull => Normal JUndefined
  | _ => get_prop v k
  end.

(** [a || b] with [b] already evaluated (it has no effect here). *)
Definition or_else (a b : JSValue) : JSValue := if truthy a then a else b.

Definition mul (a b : JSNumber) : JSNumber :=
  match a, b with
  | Num x, Num y => Num (x * y)
  | _, _ => NaN
  end.

(** [a > b]: false as soon as one side is [NaN]. *)
Definition gt (a b : JSNumber) : bool :=
  match a, b with
  | Num x, Num y => y <? x
  | _, _ => false
  end.

(** [String.prototype.includes] *)
Fixpoint includes (needle hay : string) : bool :=
  String.prefix needle hay ||
  match hay with
  | EmptyString => false
  | String _ rest => includes needle rest
  end.

(** [String.prototype.split] with a one-character separator. *)
Fixpoint split (sep : Ascii.ascii) (s : string) : list string :=
  match s with
  | EmptyString => [EmptyString]
  | String c rest =>
      if Ascii.eqb c sep then EmptyString :: split sep rest
      else match split sep rest with
           | seg :: segs => String c seg :: segs
           | [] => [String c EmptyString]
           end
  end.

End JS.
Export JS.

(** ** The host interface *)

Class Host : Type := {
  (** [JSON.parse] *)
  JSON_parse : string -> Completion JSValue;
  (** [JSON.stringify] *)
  JSON_stringify : JSValue -> string;
  (** [StringToNumber] of the language, used by [ToNumber] on strings *)
  StringToNumber : string -> JSNumber;
  (** [process.env.REACT_APP_API_URL], fixed when the bundle is built *)
  REACT_APP_API_URL : option string
}.

(** ** [atob]: the forgiving base64 decoder of the HTML standard *)

Module Base64.

Definition is_ascii_whitespace (c : Ascii.ascii) : bool :=
  let n := Ascii.N_of_ascii c in
  ((n =? 9) || (n =? 10) || (n =? 12) || (n =? 13) || (n =? 32))%N.

(** Position of a character in the alphabet [A-Za-z0-9+/]. *)
Definition sextet (c : Ascii.ascii) : option N :=
  let n := Ascii.N_of_ascii c in
  if ((65 <=? n) && (n <=? 90))%N then Some (n - 65)%N
  else if ((97 <=? n) && (n <=? 122))%N then Some (n - 71)%N
  else if ((48 <=? n) && (n <=? 57))%N then Some (n + 4)%N
  else if (n =? 43)%N then Some 62%N
  else if (n =? 47)%N then Some 63%N
  else None.

(** Drops one or two trailing [=] when the length is a multiple of four. *)
Definition strip_padding (data : list Ascii.ascii) : list Ascii.ascii :=
  if (length data mod 4 =? 0)%nat then
    match rev data with
    | "="%char :: "="%char :: r => rev r
    | "="%char :: r => rev r
    | _ => data
    end
  else data.

Definition byte (n : N) : Ascii.ascii := Ascii.ascii_of_N (n mod 256).

(** Four sextets give three bytes; a final group of two gives one byte and
    a final group of three gives two, the spare low bits being dropped. *)
Fixpoint decode_groups (l : list N) : string :=
  match l with
  | a :: b :: c :: d :: rest =>
      let w := (a * 262144 + b * 4096 + c * 64 + d)%N in
      String (byte (w / 65536))
        (String (byte (w / 256)) (String (byte w) (decode_groups rest)))
  | [a; b; c] =>
      let w := (a * 4096 + b * 64 + c)%N in
      String (byte (w / 1024)) (String (byte (w / 4)) EmptyString)
  | [a; b] => String (byte ((a * 64 + b) / 16)) EmptyString
  | _ => EmptyString
  end.

Definition invalid_character : JSError :=
  {| name := "InvalidCharacterError";
     message := "Failed to execute 'atob' on 'Window': The string to be decoded is not correctly encoded." |}.

Definition atob (s : string) : Completion string :=
  let data :=
    strip_padding
      (List.filter (fun c => negb (is_ascii_whitespace c)) (String.list_ascii_of_string s)) in
  if (length data mod 4 =? 1)%nat then Throw invalid_character
  else match mapM sextet data with
       | Some sextets => Normal (decode_groups sextets)
       | None => Throw invalid_character
       end.

End Base64.
Export Base64.

(** ** State and exceptions *)

Module Effects.

(** A computation over a mutable state [S] that returns or throws; what
    it changed before throwing stays changed. *)
Definition Eff (S A : Type) : Type := S -> S * Completion A.

Section Eff.
Context {S : Type}.

#[global] Instance Eff_ret : MRet (Eff S) := fun A a s => (s, Normal a).

#[global] Instance Eff_bind : MBind (Eff S) :=
  fun A B f m s =>
    match m s with
    | (s', Normal a) => f a s'
    | (s', Throw e) => (s', Throw e)
    end.

Definition throw {A} (e : JSError) : Eff S A := fun s => (s, Throw e).

Definition lift {A} (c : Completion A) : Eff S A := fun s => (s, c).

Definition gets {A} (f : S -> A) : Eff S A := fun s => (s, Normal (f s)).

Definition modify (f : S -> S) : Eff S unit := fun s => (f s, Normal tt).

(** [try { body } catch (error) { handler }] *)
Definition try_catch {A} (body : Eff S A) (handler : JSError -> Eff S A) : Eff S A :=
  fun s =>
    match body s with
    | (s', Normal a) => (s', Normal a)
    | (s', Throw e) => handler e s'
    end.

(** [try { body } finally { cleanup }], for a [cleanup] that does not throw
    or return. *)
Definition try_finally {A} (body : Eff S A) (cleanup : S -> S) : Eff S A :=
  fun s => let '(s', r) := body s in (cleanup s', r).

End Eff.

End Effects.
Export Effects.

(** ** The browser and the session store *)

(** A call of [fetch(url, config)]. *)
Record Request : Type := {
  req_url : string;
  req_method : option string;
  req_headers : list (string * string);
  req_body : option string
}.

(** What the code reads and writes outside its own components:
    [localStorage], the state of [AuthProvider] ([user], [loading]), the
    number of [window.location.reload()] calls and the [fetch] calls issued
    so far, oldest first. *)
Record World : Type := {
  localStorage : gmap string string;
  user : JSValue;
  loading : bool;
  reloads : nat;
  fetched : list Request
}.

Definition set_localStorage (f : gmap string string -> gmap string string) (w : World) : World :=
  {| localStorage := f (localStorage w); user := user w; loading := loading w;
     reloads := reloads w; fetched := fetched w |}.

Definition set_user (u : JSValue) (w : World) : World :=
  {| localStorage := localStorage w; user := u; loading := loading w;
     reloads := reloads w; fetched := fetched w |}.

Definition set_loading (b : bool) (w : World) : World :=
  {| localStorage := localStorage w; user := user w; loading := b;
     reloads := reloads w; fetched := fetched w |}.

Definition add_reload (w : World) : World :=
  {| localStorage := localStorage w; user := user w; loading := loading w;
     reloads := S (reloads w); fetched := fetched w |}.

Definition add_fetched (r : Request) (w : World) : World :=
  {| localStorage := localStorage w; user := user w; loading := loading w;
     reloads := reloads w; fetched := fetched w ++ [r] |}.

(** The page as it starts: [useState(null)], [useState(true)], nothing
    reloaded or fetched yet. *)
Definition startup (storage : gmap string string) : World :=
  {| localStorage := storage; user := JNull; loading := true;
     reloads := 0; fetched := [] |}.

Definition getItem (k : string) : Eff World (option string) :=
  gets (fun w => localStorage w !! k).

Definition removeItem (k : string) : Eff World unit :=
  modify (set_localStorage (delete k)).

Definition setUser (u : JSValue) : Eff World unit := modify (set_user u).

Definition setLoading (b : bool) : Eff World unit := modify (set_loading b).

Definition reload : Eff World unit := modify add_reload.

(** The world once [localStorage.removeItem('token')] and
    [localStorage.removeItem('user')] have run. *)
Definition signed_out (w : World) : World :=
  set_localStorage (delete "user") (set_localStorage (delete "token") w).

Module Session.
Section Session.
Context `{Host}.

Definition ToNumber (v : JSValue) : JSNumber :=
  match v with
  | JUndefined => NaN
  | JNull => Num 0
  | JBool b => Num (if b then 1 else 0)
  | JNumber n => n
  | JString s => StringToNumber s
  | JArray _ | JObject _ => StringToNumber (ToString v)
  end.

(** [JSON.parse(atob(token.split('.')[1]))]; a token without a second
    segment hands [undefined] to [atob], which reads it as the string
    ["undefined"]. *)
Definition decodePayload (token : string) : Completion JSValue :=
  encoded ← atob (match split "." token !! 1%nat with
                  | Some segment => segment
                  | None => ToString JUndefined
                  end);
  JSON_parse encoded.

Definition clearStorage : Eff World unit :=
  removeItem "token";; removeItem "user".

(** The body of the [try] in the startup effect. *)
Definition verifyToken (token userData : string) (now : Z) : Eff World unit :=
  tokenPayload ← lift (decodePayload token);
  exp ← lift (get_prop tokenPayload "exp");
  if gt (mul (ToNumber exp) (Num 1000)) (Num now) then
    parsed ← lift (JSON_parse userData);
    setUser parsed
  else clearStorage.

(** The startup effect of [AuthProvider], run at time [now]
    ([console.error] in the handler changes nothing that is modelled). *)
Definition initialize (now : Z) : Eff World unit :=
  token ← getItem "token";
  userData ← getItem "user";
  match token, userData with
  | Some t, Some u =>
      if negb (String.eqb t "") && negb (String.eqb u "") then
        try_catch (verifyToken t u now) (fun error => clearStorage)
      else mret tt
  | _, _ => mret tt
  end;;
  setLoading false.

Definition logout : Eff World unit :=
  removeItem "token";; removeItem "user";; setUser JNull.

End Session.
End Session.
Export Session.

(** ** The API gateway *)

Module Gateway.

(** The [options] argument of [apiRequest]; an absent field is [None]. *)
Record Options : Type := {
  opt_method : option string;
  opt_headers : option (list (string * string));
  opt_body : option string
}.

(** [options = {}] *)
Definition no_options : Options :=
  {| opt_method := None; opt_headers := None; opt_body := None |}.

(** What [apiRequest] reads of a [Response]; [json] is the outcome of
    [response.json()]. *)
Record Response : Type := {
  status : Z;
  statusText : string;
  json : Completion JSValue
}.

(** [response.ok]: the status is in the range 200 to 299. *)
Definition ok (r : Response) : bool := (200 <=? status r) && (status r <=? 299).

(** How the network answers a [fetch]: the promise rejects, or resolves
    with a response. *)
Inductive FetchReply : Type :=
| Rejects (e : JSError)
| Responds (r : Response).

Definition fetch (request : Request) (reply : FetchReply) : Eff World Response :=
  modify (add_fetched request);;
  match reply with
  | Rejects e => throw e
  | Responds r => mret r
  end.

Definition connectivity_message : string :=
  "Unable to connect to server. Please check your connection.".

(** [`HTTP ${response.status}: ${response.statusText}`] *)
Definition http_fallback (r : Response) : string :=
  "HTTP " +:+ pretty (status r) +:+ ": " +:+ statusText r.

(** The [headers] literal: [Authorization] is spread in when the token is
    truthy. *)
Definition default_headers (token : option string) : list (string * string) :=
  ("Content-Type", "application/json") ::
  match token with
  | Some t => if String.eqb t "" then [] else [("Authorization", "Bearer " +:+ t)]
  | None => []
  end.

(** [{ headers: {...}, ...options }]: a [headers] field of [options]
    replaces the literal. *)
Definition make_request (url : string) (token : option string) (options : Options) : Request :=
  {| req_url := url;
     req_method := opt_method options;
     req_headers := match opt_headers options with
                    | Some h => h
                    | None => default_headers token
                    end;
     req_body := opt_body options |}.


Section Gateway.
Context `{Host}.

(** [process.env.REACT_APP_API_URL || 'http://localhost:5000/api'] *)
Definition API_URL : string :=
  match REACT_APP_API_URL with
  | Some u => if String.eqb u "" then "http://localhost:5000/api" else u
  | None => "http://localhost:5000/api"
  end.

(** The body of the [try] of [apiRequest]. *)
Definition request (endpoint : string) (token : option string) (options : Options)
    (reply : FetchReply) : Eff World JSValue :=
  response ← fetch (make_request (API_URL +:+ endpoint) token options) reply;
  data ← lift (json response);
  if negb (ok response) then
    if (status response =? 401) || (status response =? 403) then
      removeItem "token";; removeItem "user";; reload;; mret JUndefined
    else
      error ← lift (get_prop data "error");
      msg ← lift (get_prop_opt error "message");
      throw (new_Error (or_else msg (JString (http_fallback response))))
  else mret data.

(** The [catch] of [apiRequest]. *)
Definition on_error (error : JSError) : Eff World JSValue :=
  if String.eqb (name error) "TypeError" && includes "fetch" (message error)
  then throw (new_Error (JString connectivity_message))
  else throw error.

Definition apiRequest (endpoint : string) (options : Options) (reply : FetchReply)
    : Eff World JSValue :=
  token ← getItem "token";
  try_catch (request endpoint token options reply) on_error.

(** The [fetch] call that [apiRequest] issues in the world [w]. *)
Definition issued (endpoint : string) (options : Options) (w : World) : Request :=
  make_request (API_URL +:+ endpoint) (localStorage w !! "token") options.

(** Calls made one after the other, each with the reply it gets; the
    callers' own state is not part of the world. *)
Definition apiRequests (calls : list (string * Options * FetchReply)) (w : World) : World :=
  fold_left (fun w '(endpoint, options, reply) => fst (apiRequest endpoint options reply w))
    calls w.

End Gateway.
End Gateway.
Export Gateway.

(** ** Transient messages ([useMessages]) *)

Module Messages.

Record Message : Type := {
  msg_id : Z;
  msg_message : string;
  msg_type : string
}.

#[global] Instance Message_eq_dec : EqDecision Message.
Proof. solve_decision. Defined.

(** The state of the hook and the timeouts it has pending, each with the
    time it is due and the identifier its callback captured. *)
Record MessagesState : Type := {
  messages : list Message;
  timers : list (Z * Z)
}.

Definition no_messages : MessagesState := {| messages := []; timers := [] |}.

(** [prev.filter(msg => msg.id !== id)] *)
Definition without (id : Z) (prev : list Message) : list Message :=
  List.filter (fun msg => negb (msg_id msg =? id)) prev.

(** [addMessage(message, type)] called when [Date.now()] is [now]. *)
Definition addMessage (now : Z) (message type : string) (st : MessagesState) : MessagesState :=
  let id := now in
  {| messages := messages st ++ [{| msg_id := id; msg_message := message; msg_type := type |}];
     timers := timers st ++ [(now + 5000, id)] |}.

(** [addMessage(message)]: [type = 'error'] *)
Definition addError (now : Z) (message : string) : MessagesState -> MessagesState :=
  addMessage now message "error".

Definition removeMessage (id : Z) (st : MessagesState) : MessagesState :=
  {| messages := without id (messages st); timers := timers st |}.

Definition clearMessages (st : MessagesState) : MessagesState :=
  {| messages := []; timers := timers st |}.

(** The callback of the timeout that [addMessage] set for [id]. *)
Definition expire (id : Z) (st : MessagesState) : MessagesState :=
  {| messages := without id (messages st); timers := timers st |}.

(** The clock reaches [t]: the timeouts due by then run, oldest first, and
    leave the pending list. *)
Definition advance (t : Z) (st : MessagesState) : MessagesState :=
  let due := List.filter (fun timer => fst timer <=? t) (timers st) in
  let pending := List.filter (fun timer => negb (fst timer <=? t)) (timers st) in
  fold_left (fun acc timer => expire (snd timer) acc) due
    {| messages := messages st; timers := pending |}.

End Messages.
Export Messages.

(** ** The registration form *)

Module RegisterForm.

Record FormData : Type := {
  form_name : string;
  form_email : string;
  form_password : string;
  form_confirmPassword : string
}.

Definition empty_form : FormData :=
  {| form_name := ""; form_email := ""; form_password := ""; form_confirmPassword := "" |}.

(** The state of the component: its [useState] cells, its messages, and
    the due times of the pending [setTimeout(() => onSwitchToLogin(), 2000)]. *)
Record State : Type := {
  formData : FormData;
  form_loading : bool;
  passwordStrength : nat;
  form_messages : MessagesState;
  switch_timers : list Z
}.

Definition with_messages (f : MessagesState -> MessagesState) (st : State) : State :=
  {| formData := formData st; form_loading := form_loading st;
     passwordStrength := passwordStrength st;
     form_messages := f (form_messages st); switch_timers := switch_timers st |}.

Definition with_loading (b : bool) (st : State) : State :=
  {| formData := formData st; form_loading := b;
     passwordStrength := passwordStrength st;
     form_messages := form_messages st; switch_timers := switch_timers st |}.

Definition with_formData (fd : FormData) (st : State) : State :=
  {| formData := fd; form_loading := form_loading st;
     passwordStrength := passwordStrength st;
     form_messages := form_messages st; switch_timers := switch_timers st |}.

Definition with_switch (due : Z) (st : State) : State :=
  {| formData := formData st; form_loading := form_loading st;
     passwordStrength := passwordStrength st;
     form_messages := form_messages st; switch_timers := switch_timers st ++ [due] |}.

Definition with_strength (n : nat) (st : State) : State :=
  {| formData := formData st; form_loading := form_loading st;
     passwordStrength := n;
     form_messages := form_messages st; switch_timers := switch_timers st |}.

Definition code_between (lo hi : N) (c : ascii) : bool :=
  ((lo <=? N_of_ascii c) && (N_of_ascii c <=? hi))%N.

(** [regex.test(password)] for a one-character class. *)
Definition test (class : ascii -> bool) (s : string) : bool :=
  existsb class (String.list_ascii_of_string s).

Definition special (c : ascii) : bool :=
  existsb (Ascii.eqb c) (String.list_ascii_of_string "@$!%*?&").

Definition validatePassword (password : string) : nat :=
  ((if (8 <=? String.length password)%nat then 1 else 0)
   + (if test (code_between 97 122) password then 1 else 0)
   + (if test (code_between 65 90) password then 1 else 0)
   + (if test (code_between 48 57) password then 1 else 0)
   + (if test special password then 1 else 0))%nat.

(** The effect on [formData.password]. *)
Definition syncStrength (st : State) : State :=
  with_strength (validatePassword (form_password (formData st))) st.

Section RegisterForm.
Context `{Host}.

Definition register_options (fd : FormData) : Options :=
  {| opt_method := Some "POST";
     opt_headers := None;
     opt_body := Some (JSON_stringify
                         (JObject [("name", JString (form_name fd));
                                   ("email", JString (form_email fd));
                                   ("password", JString (form_password fd))])) |}.

(** [handleSubmit]: the handler starts when [Date.now()] is [now]; if it
    awaits [apiRequest], the network answers with [reply] and it resumes
    when [Date.now()] is [later]. *)
Definition handleSubmit (now later : Z) (reply : FetchReply) (w : World) (st : State)
    : World * State :=
  let fd := formData st in
  if negb (String.eqb (form_password fd) (form_confirmPassword fd)) then
    (w, with_messages (addError now "Passwords do not match") st)
  else if (passwordStrength st <? 5)%nat then
    (w, with_messages
          (addError now "Password must contain at least 8 characters with uppercase, lowercase, number, and special character")
          st)
  else
    let st := with_loading true st in
    let '(w', outcome) := apiRequest "/register" (register_options fd) reply w in
    let st :=
      match outcome with
      | Normal _ =>
          with_switch (later + 2000)
            (with_formData empty_form
               (with_messages
                  (addMessage later "Registration successful! Please log in." "success") st))
      | Throw err => with_messages (addError later (message err)) st
      end in
    (w', with_loading false st).

End RegisterForm.
End RegisterForm.

(** ** The calls of [apiRequest] in the application *)

Module CallSites.
Import RegisterForm.

Inductive Call : Type :=
| Login (email password : string)
| Register (fd : FormData)
| Slots (fromDate toDate : string)
| Book (slotId : JSValue)
| MyBookings
| CancelBooking (bookingId : JSValue)
| AllBookings (page limit : JSValue).

Section CallSites.
Context `{Host}.

Definition endpoint_of (c : Call) : string :=
  match c with
  | Login _ _ => "/login"
  | Register _ => "/register"
  | Slots fromDate toDate => "/slots?from=" +:+ fromDate +:+ "&to=" +:+ toDate
  | Book _ => "/book"
  | MyBookings => "/my-bookings"
  | CancelBooking bookingId => "/bookings/" +:+ ToString bookingId
  | AllBookings page limit =>
      "/all-bookings?page=" +:+ ToString page +:+ "&limit=" +:+ ToString limit
  end.

Definition options_of (c : Call) : Options :=
  match c with
  | Login email password =>
      {| opt_method := Some "POST"; opt_headers := None;
         opt_body := Some (JSON_stringify
                             (JObject [("email", JString email);
                                       ("password", JString password)])) |}
  | Register fd => register_options fd
  | Book slotId =>
      {| opt_method := Some "POST"; opt_headers := None;
         opt_body := Some (JSON_stringify (JObject [("slotId", slotId)])) |}
  | CancelBooking _ =>
      {| opt_method := Some "DELETE"; opt_headers := None; opt_body := None |}
  | Slots _ _ | MyBookings | AllBookings _ _ => no_options
  end.

End CallSites.
End CallSites.

(** ** A host and sample data for the examples *)

Module Fixture.

Definition quote : string := String (ascii_of_nat 34) EmptyString.

Definition quoted (s : string) : string := quote +:+ s +:+ quote.

Definition field (k v : string) : string := quoted k +:+ ":" +:+ v.

(** The JSON text of a token payload with only an [exp] claim. *)
Definition exp_text (e : Z) : string := "{" +:+ field "exp" (pretty e) +:+ "}".

Definition exp_payload (e : Z) : JSValue := JObject [("exp", JNumber (Num e))].

Definition profile : JSValue :=
  JObject [("name", JString "Pat"); ("role", JString "patient")].

Definition profile_text : string :=
  "{" +:+ field "name" (quoted "Pat") +:+ "," +:+ field "role" (quoted "patient") +:+ "}".

(** The texts the examples hand to [JSON.parse], with their values. *)
Definition parse_table : list (string * JSValue) :=
  [ (exp_text 9999999999, exp_payload 9999999999);
    (exp_text 1, exp_payload 1);
    (profile_text, profile) ].

Definition syntax_error : JSError :=
  {| name := "SyntaxError"; message := "Unexpected end of JSON input" |}.

(** Serialisation of values whose strings need no escaping; a property
    whose value is [undefined] is left out. *)
Fixpoint stringify (v : JSValue) : string :=
  match v with
  | JUndefined | JNull => "null"
  | JBool true => "true"
  | JBool false => "false"
  | JNumber NaN => "null"
  | JNumber (Num z) => pretty z
  | JString s => quoted s
  | JArray elems => "[" +:+ join_comma (map stringify elems) +:+ "]"
  | JObject props =>
      "{" +:+ join_comma
                (concat (map (fun '(k, x) => match x with
                                             | JUndefined => []
                                             | _ => [field k (stringify x)]
                                             end) props))
          +:+ "}"
  end.

(** The engine on the inputs of the examples: it parses the texts of
    [parse_table], the other texts the examples hand to it are not JSON,
    and no example coerces a string to a number. *)
#[export] Instance host : Host := {|
  JSON_parse s :=
    match List.find (fun entry => String.eqb (fst entry) s) parse_table with
    | Some entry => Normal (snd entry)
    | None => Throw syntax_error
    end;
  JSON_stringify := stringify;
  StringToNumber _ := NaN;
  REACT_APP_API_URL := None
|}.

(** header [{alg: HS256}], payload [{exp: 9999999999}] *)
Definition valid_token : string :=
  "eyJhbGciOiJIUzI1NiJ9.eyJleHAiOjk5OTk5OTk5OTl9.c2ln".

(** header [{alg: HS256}], payload [{exp: 1}] *)
Definition expired_token : string :=
  "eyJhbGciOiJIUzI1NiJ9.eyJleHAiOjF9.c2ln".

(** A time in November 2023, in milliseconds. *)
Definition now : Z := 1700000000000.

Definition session (token userData : string) : gmap string string :=
  <["user" := userData]> (<["token" := token]> ∅).

Definition unauthorized_empty_body : Response :=
  {| status := 401; statusText := "Unauthorized"; json := Throw syntax_error |}.

Definition server_error_no_body : Response :=
  {| status := 500; statusText := "Internal Server Error"; json := Throw syntax_error |}.

Definition bad_request (body : JSValue) : Response :=
  {| status := 400; statusText := "Bad Request"; json := Normal body |}.

(** [{error: {message: m}}] *)
Definition error_envelope (m : string) : JSValue :=
  JObject [("error", JObject [("message", JString m)])].

(** The rejection of [fetch] in WebKit when the server cannot be reached. *)
Definition load_failed : JSError :=
  {| name := "TypeError"; message := "Load failed" |}.

(** The same in Chromium. *)
Definition failed_to_fetch : JSError :=
  {| name := "TypeError"; message := "Failed to fetch" |}.

(** A signed-in page, and a storage with a leftover token only. *)
Definition signed_in : World := startup (session valid_token profile_text).


Definition forbidden : Response :=
  {| status := 403; statusText := "Forbidden";
     json := Normal (error_envelope "Admin access required") |}.

Definition created : Response :=
  {| status := 201; statusText := "Created";
     json := Normal (JObject [("message", JString "User registered")]) |}.

Definition filled_form : RegisterForm.State :=
  {| RegisterForm.formData :=
       {| RegisterForm.form_name := "Pat";
          RegisterForm.form_email := "patient@example.com";
          RegisterForm.form_password := "Passw0rd!";
          RegisterForm.form_confirmPassword := "Passw0rd!" |};
     RegisterForm.form_loading := false;
     RegisterForm.passwordStrength := 0;
     RegisterForm.form_messages := no_messages;
     RegisterForm.switch_timers := [] |}.

Definition mistyped_form : RegisterForm.State :=
  RegisterForm.with_formData
    {| RegisterForm.form_name := "Pat";
       RegisterForm.form_email := "patient@example.com";
       RegisterForm.form_password := "Passw0rd!";
       RegisterForm.form_confirmPassword := "Passw0rd" |}
    filled_form.

End Fixture.

(** ** Object literals, and the rest of the session store *)

Module Objects.

(** [obj[k] = v] on a property list: the binding of [k] is replaced where
    it stands, a new key goes to the end. *)
Fixpoint set_prop (k : string) (v : JSValue) (props : list (string * JSValue))
    : list (string * JSValue) :=
  match props with
  | [] => [(k, v)]
  | (k', x) :: rest =>
      if String.eqb k' k then (k, v) :: rest else (k', x) :: set_prop k v rest
  end.

(** The own enumerable properties that [...v] copies: those of an object,
    the indices of an array or of a string, none for the other values. *)
Definition own_props (v : JSValue) : list (string * JSValue) :=
  match v with
  | JObject props => props
  | JArray elems => imap (fun i x => (pretty i, x)) elems
  | JString s =>
      imap (fun i c => (pretty i, JString (String c EmptyString)))
        (String.list_ascii_of_string s)
  | _ => []
  end.

(** [{ ...base, ...v }] *)
Definition spread (base : list (string * JSValue)) (v : JSValue)
    : list (string * JSValue) :=
  fold_left (fun acc p => set_prop p.1 p.2 acc) (own_props v) base.

(** [v === s] for a string literal [s] *)
Definition is_string (s : string) (v : JSValue) : bool :=
  match v with
  | JString x => String.eqb x s
  | _ => false
  end.

End Objects.
Export Objects.

Definition setItem (k v : string) : Eff World unit :=
  modify (set_localStorage (insert k v)).

Module SessionLogin.
Section SessionLogin.
Context `{Host}.

(** [{ ...userData, role }] *)
Definition with_role (userData role : JSValue) : JSValue :=
  JObject (set_prop "role" role (spread [] userData)).

Definition login (token userData role : JSValue) : Eff World unit :=
  setItem "token" (ToString token);;
  setItem "user" (JSON_stringify (with_role userData role));;
  setUser (with_role userData role).

End SessionLogin.
End SessionLogin.
Export SessionLogin.

(** ** The application shell ([App], [Dashboard]) *)

Module AppShell.

(** What the shell renders. *)
Inductive View : Type :=
| Initializing
| AuthPage
| PatientDashboard
| AdminDashboard.

(** What React makes of the tree a component returns: it mounts the
    view, or it refuses a child that is not text, throws ([Objects are not
    valid as a React child]) and shows nothing. *)
Inductive Rendering : Type :=
| Mounts (v : View)
| Refuses (child : JSValue).

(** The values React accepts as a child: strings and numbers are text,
    booleans, [null] and [undefined] render nothing, an array is rendered
    child by child; an object made of data is no element and is refused. *)
Fixpoint renderable (child : JSValue) : bool :=
  match child with
  | JObject _ => false
  | JArray elems => forallb renderable elems
  | _ => true
  end.

(** The header renders [Welcome, {user.name}] and a label chosen by
    [user.role === 'admin']; below it,
    [user.role === 'admin' ? <AdminDashboard /> : <PatientDashboard />]. *)
Definition Dashboard (user : JSValue) : Completion Rendering :=
  name ← get_prop user "name";
  role ← get_prop user "role";
  mret (if renderable name
        then Mounts (if is_string "admin" role then AdminDashboard else PatientDashboard)
        else Refuses name).

Definition App (w : World) : Completion Rendering :=
  if loading w then mret (Mounts Initializing)
  else if truthy (user w) then Dashboard (user w)
  else mret (Mounts AuthPage).

End AppShell.
Export AppShell.

(** ** Runs of the operations on the world *)

Module Runs.

Inductive Operation : Type :=
| Initialize (now : Z)
| Login (token userData role : JSValue)
| Logout
| Request (endpoint : string) (options : Options) (reply : FetchReply).

Section Runs.
Context `{Host}.

Definition perform (op : Operation) (w : World) : World :=
  match op with
  | Initialize now => fst (initialize now w)
  | Login token userData role => fst (login token userData role w)
  | Logout => fst (logout w)
  | Request endpoint options reply => fst (apiRequest endpoint options reply w)
  end.

Definition perform_all (ops : list Operation) (w : World) : World :=
  fold_left (fun w op => perform op w) ops w.

End Runs.
End Runs.

(** ** The login form *)

Module LoginForm.

Record FormData : Type := {
  form_email : string;
  form_password : string
}.

(** The state of the component: its [useState] cells and its messages. *)
Record State : Type := {
  formData : FormData;
  form_loading : bool;
  form_messages : MessagesState
}.

Definition with_messages (f : MessagesState -> MessagesState) (st : State) : State :=
  {| formData := formData st; form_loading := form_loading st;
     form_messages := f (form_messages st) |}.

Definition with_loading (b : bool) (st : State) : State :=
  {| formData := formData st; form_loading := b; form_messages := form_messages st |}.

Section LoginForm.
Context `{Host}.

(** The body of the [try] of [handleSubmit]. *)
Definition submit (fd : FormData) (reply : FetchReply) : Eff World unit :=
  response ← apiRequest "/login"
               (CallSites.options_of (CallSites.Login (form_email fd) (form_password fd)))
               reply;
  token ← lift (get_prop response "token");
  userData ← lift (get_prop response "user");
  role ← lift (get_prop response "role");
  login token userData role.

(** [handleSubmit]: the network answers with [reply] and the handler
    resumes when [Date.now()] is [later]. *)
Definition handleSubmit (later : Z) (reply : FetchReply) (w : World) (st : State)
    : World * State :=
  let st := with_loading true st in
  let '(w', outcome) := submit (formData st) reply w in
  let st :=
    match outcome with
    | Normal _ => with_messages (addMessage later "Login successful!" "success") st
    | Throw err => with_messages (addError later (message err)) st
    end in
  (w', with_loading false st).

End LoginForm.
End LoginForm.

(** ** The password strength meter of the registration form *)

Module StrengthMeter.

Definition levels : list string := ["Very Weak"; "Weak"; "Fair"; "Good"; "Strong"].

Definition colors : list string :=
  ["#ff4444"; "#ff8800"; "#ffaa00"; "#88cc00"; "#44cc44"].

(** [table[Math.max(0, passwordStrength - 1)] || fallback]; the entries of
    both tables are truthy. *)
Definition entry (table : list string) (fallback : string) (passwordStrength : nat)
    : string :=
  match table !! Nat.max 0 (passwordStrength - 1) with
  | Some x => x
  | None => fallback
  end.

Definition getPasswordStrengthText (passwordStrength : nat) : string :=
  entry levels "Very Weak" passwordStrength.

Definition getPasswordStrengthColor (passwordStrength : nat) : string :=
  entry colors "#ff4444" passwordStrength.

End StrengthMeter.

(** ** More sample data *)

Module Samples.

Definition login_form : LoginForm.State :=
  {| LoginForm.formData :=
       {| LoginForm.form_email := "patient@example.com";
          LoginForm.form_password := "Passw0rd!" |};
     LoginForm.form_loading := false;
     LoginForm.form_messages := no_messages |}.

(** The body the API sends for a successful login. *)
Definition login_body : JSValue :=
  JObject [("token", JString Fixture.valid_token);
           ("user", JObject [("name", JString "Pat")]);
           ("role", JString "patient")].

Definition success (body : JSValue) : Response :=
  {| status := 200; statusText := "OK"; json := Normal body |}.

Definition invalid_credentials : Response :=
  {| status := 401; statusText := "Unauthorized";
     json := Normal (Fixture.error_envelope "Invalid credentials") |}.

End Samples.

(** ** Histories of a message list *)

Module MessageEvents.

(** What happens to the state of [useMessages]: a notice is added when
    [Date.now()] is [now], one is dismissed, all are cleared, or the clock
    reaches [t] and the timeouts due by then run. *)
Inductive Event : Type :=
| Add (now : Z) (message type : string)
| Dismiss (id : Z)
| Clear
| Tick (t : Z).

Definition apply_event (st : MessagesState) (ev : Event) : MessagesState :=
  match ev with
  | Add now message type => addMessage now message type st
  | Dismiss id => removeMessage id st
  | Clear => clearMessages st
  | Tick t => advance t st
  end.

(** The state of a freshly mounted hook after the events, oldest first. *)
Definition play (events : list Event) : MessagesState :=
  fold_left apply_event events no_messages.

End MessageEvents.

(** ** Dates, slots and bookings *)

From Stdlib Require QArith.

(** [new Date(dateStr)] as its time value in milliseconds, [NaN] for an
    invalid date; parsing is the engine's. *)
Class Dates : Type := {
  Date_parse : string -> JSNumber
}.

Module Slots.

(** [a <= b] on numbers: false as soon as one side is [NaN]. *)
Definition le (a b : JSNumber) : bool :=
  match a, b with
  | Num x, Num y => x <=? y
  | _, _ => false
  end.

(** [a - b] *)
Definition sub (a b : JSNumber) : JSNumber :=
  match a, b with
  | Num x, Num y => Num (x - y)
  | _, _ => NaN
  end.

(** The fields of a slot and of a booking that the code below reads;
    identifiers are numbers or strings, compared with [!==]. *)
Record Slot (Id : Type) : Type := {
  slot_id : Id;
  startAt : string;
  endAt : string
}.
Arguments slot_id {Id} _.
Arguments startAt {Id} _.
Arguments endAt {Id} _.

Record Booking (Id : Type) : Type := {
  booking_id : Id;
  booking_slot : Slot Id;
  createdAt : string
}.
Arguments booking_id {Id} _.
Arguments booking_slot {Id} _.
Arguments createdAt {Id} _.

Section Slots.
Context `{Dates}.

(** [new Date(dateStr) <= new Date()], the clock reading [now]. *)
Definition isSlotInPast (dateStr : string) (now : Z) : bool :=
  le (Date_parse dateStr) (Num now).

(** [hoursDiff <= 24 && hoursDiff > 0] for
    [hoursDiff = (slotTime - now) / (1000 * 60 * 60)]; the quotient is
    taken in the rationals, where the two comparisons come out as they do
    on the doubles of integer operands. *)
Definition isSlotSoon (dateStr : string) (now : Z) : bool :=
  match sub (Date_parse dateStr) (Num now) with
  | NaN => false
  | Num diff =>
      let hoursDiff :=
        QArith_base.Qdiv (QArith_base.inject_Z diff)
          (QArith_base.inject_Z (1000 * 60 * 60)) in
      QArith_base.Qle_bool hoursDiff (QArith_base.inject_Z 24)
      && negb (QArith_base.Qle_bool hoursDiff (QArith_base.inject_Z 0))
  end.

(** What [SlotCard] shows: whether the button is disabled, its label, and
    whether the badge [Soon!] is there. *)
Record Card : Type := {
  card_disabled : bool;
  card_label : string;
  card_soon : bool
}.

Definition SlotCard {Id : Type} (slot : Slot Id) (isBooking : bool) (now : Z) : Card :=
  let isPast := isSlotInPast (startAt slot) now in
  let isSoon := isSlotSoon (startAt slot) now in
  {| card_disabled := isPast || isBooking;
     card_label := if isBooking then "Booking..." else if isPast then "Past" else "Book Slot";
     card_soon := isSoon |}.

(** The [reduce] of [MyBookings] and of [AdminDashboard]: each booking is
    pushed on [upcomingBookings] or on [pastBookings]. *)
Definition classify {Id : Type} (now : Z) (bookings : list (Booking Id))
    : list (Booking Id) * list (Booking Id) :=
  fold_left
    (fun acc booking =>
       if gt (Date_parse (startAt (booking_slot booking))) (Num now)
       then (acc.1 ++ [booking], acc.2)
       else (acc.1, acc.2 ++ [booking]))
    bookings ([], []).

End Slots.

Section Handlers.
Context `{Host} {Id : Type} `{EqDecision Id}.

(** The identifier as the value that goes into a request. *)
Variable id_value : Id -> JSValue.

(** The state of [SlotsList] that [handleBookSlot] touches. *)
Record SlotsState : Type := {
  slots : list (Slot Id);
  bookingSlot : option Id;
  slots_messages : MessagesState
}.

Definition handleBookSlot (slotId : Id) (later : Z) (reply : FetchReply) (w : World)
    (st : SlotsState) : World * SlotsState :=
  let call := CallSites.Book (id_value slotId) in
  let '(w', outcome) :=
    apiRequest (CallSites.endpoint_of call) (CallSites.options_of call) reply w in
  (w',
   match outcome with
   | Normal _ =>
       {| slots := List.filter (fun slot => negb (bool_decide (slot_id slot = slotId)))
                     (slots st);
          bookingSlot := None;
          slots_messages :=
            addMessage later "Slot booked successfully!" "success" (slots_messages st) |}
   | Throw err =>
       {| slots := slots st;
          bookingSlot := None;
          slots_messages := addError later (message err) (slots_messages st) |}
   end).

(** The state of [MyBookings] that [handleCancelBooking] touches. *)
Record BookingsState : Type := {
  bookings : list (Booking Id);
  cancellingBooking : option Id;
  bookings_messages : MessagesState
}.

Definition handleCancelBooking (bookingId : Id) (later : Z) (reply : FetchReply)
    (w : World) (st : BookingsState) : World * BookingsState :=
  let call := CallSites.CancelBooking (id_value bookingId) in
  let '(w', outcome) :=
    apiRequest (CallSites.endpoint_of call) (CallSites.options_of call) reply w in
  (w',
   match outcome with
   | Normal _ =>
       {| bookings :=
            List.filter (fun booking => negb (bool_decide (booking_id booking = bookingId)))
              (bookings st);
          cancellingBooking := None;
          bookings_messages :=
            addMessage later "Booking cancelled successfully!" "success"
              (bookings_messages st) |}
   | Throw err =>
       {| bookings := bookings st;
          cancellingBooking := None;
          bookings_messages := addError later (message err) (bookings_messages st) |}
   end).

End Handlers.

End Slots.

(** ** Grouping the slots by day ([groupedSlots]) *)

From Stdlib Require Sorted.

(** [Array.prototype.sort(compare)] with what the language guarantees of
    it: the result holds the same elements, and it is in ascending order
    when [compare] is the difference of a numeric key. *)
Class ArraySort : Type := {
  sort : forall {A : Type}, (A -> A -> JSNumber) -> list A -> list A;
  sort_permutation :
    forall (A : Type) (compare : A -> A -> JSNumber) (l : list A),
      sort compare l ≡ₚ l;
  sort_ascending :
    forall (A : Type) (key : A -> Z) (compare : A -> A -> JSNumber) (l : list A),
      (forall a b, a ∈ l -> b ∈ l -> compare a b = Num (key a - key b)%Z) ->
      Sorted.StronglySorted (fun a b => (key a <= key b)%Z) (sort compare l)
}.

Module Grouping.
Import Slots.

(** The property names every object inherits from [Object.prototype]. *)
Definition Object_prototype_keys : list string :=
  ["constructor"; "__defineGetter__"; "__defineSetter__"; "hasOwnProperty";
   "__lookupGetter__"; "__lookupSetter__"; "isPrototypeOf"; "propertyIsEnumerable";
   "toString"; "valueOf"; "__proto__"; "toLocaleString"].

(** [groups[date].push(slot)] when [groups[date]] is an inherited member
    and not an array. *)
Definition push_is_not_a_function : JSError :=
  {| name := "TypeError"; message := "groups[date].push is not a function" |}.

Section Grouping.
Context `{Dates} `{ArraySort} {Id : Type}.

(** [slot.startAt.split('T')[0]] *)
Definition date_of (slot : Slot Id) : string :=
  match split "T" (startAt slot) !! 0%nat with
  | Some date => date
  | None => ToString JUndefined
  end.

(** One round of the [forEach]: [groups[date]] is created unless it is
    truthy, which it also is for an inherited member, and the slot is
    pushed on it. *)
Definition push_slot (groups : gmap string (list (Slot Id))) (slot : Slot Id)
    : Completion (gmap string (list (Slot Id))) :=
  let date := date_of slot in
  match groups !! date with
  | Some group => Normal (<[date := group ++ [slot]]> groups)
  | None =>
      if bool_decide (date ∈ Object_prototype_keys) then Throw push_is_not_a_function
      else Normal (<[date := [slot]]> groups)
  end.

Fixpoint collect (groups : gmap string (list (Slot Id))) (slots : list (Slot Id))
    : Completion (gmap string (list (Slot Id))) :=
  match slots with
  | [] => Normal groups
  | slot :: rest => groups' ← push_slot groups slot; collect groups' rest
  end.

(** [(a, b) => new Date(a.startAt) - new Date(b.startAt)] *)
Definition by_start (a b : Slot Id) : JSNumber :=
  sub (Date_parse (startAt a)) (Date_parse (startAt b)).

Definition groupedSlots (slots : list (Slot Id))
    : Completion (gmap string (list (Slot Id))) :=
  match collect ∅ slots with
  | Normal groups => Normal (sort by_start <$> groups)
  | Throw e => Throw e
  end.

End Grouping.
End Grouping.

(** ** An engine for the examples on slots *)

Module Engine.

(** Insertion sort: [x] goes in front of the first element it does not
    compare greater than. *)
Fixpoint insert_sorted {A : Type} (compare : A -> A -> JSNumber) (x : A) (l : list A)
    : list A :=
  match l with
  | [] => [x]
  | y :: rest =>
      if gt (compare x y) (Num 0) then y :: insert_sorted compare x rest
      else x :: y :: rest
  end.

Definition insertion_sort {A : Type} (compare : A -> A -> JSNumber) (l : list A) : list A :=
  foldr (insert_sorted compare) [] l.

Lemma insert_sorted_permutation {A : Type} (compare : A -> A -> JSNumber) (x : A)
    (l : list A) :
  insert_sorted compare x l ≡ₚ x :: l.
Proof.
  induction l as [|y l IH]; [reflexivity|]. simpl.
  destruct (gt (compare x y) (Num 0)); [|reflexivity].
  rewrite IH. apply Permutation_swap.
Qed.

Lemma insertion_sort_permutation (A : Type) (compare : A -> A -> JSNumber) (l : list A) :
  insertion_sort compare l ≡ₚ l.
Proof.
  induction l as [|x l IH]; [reflexivity|]. cbn [insertion_sort foldr].
  rewrite insert_sorted_permutation. by f_equiv.
Qed.

Lemma insert_sorted_ascending {A : Type} (key : A -> Z) (compare : A -> A -> JSNumber)
    (x : A) (l : list A) :
  (forall b, b ∈ l -> compare x b = Num (key x - key b)%Z) ->
  Sorted.StronglySorted (fun a b => (key a <= key b)%Z) l ->
  Sorted.StronglySorted (fun a b => (key a <= key b)%Z) (insert_sorted compare x l).
Proof.
  intros Hcompare Hsorted. induction Hsorted as [|y l Hl IH Hy]; simpl.
  - repeat constructor.
  - rewrite (Hcompare y) by (by left). simpl.
    destruct (Z.ltb_spec 0 (key x - key y)%Z) as [Hgt|Hle].
    + constructor.
      * apply IH. intros b Hb. apply Hcompare. by right.
      * apply Forall_forall. intros b Hb.
        rewrite (insert_sorted_permutation compare x l) in Hb.
        apply elem_of_cons in Hb as [->|Hb]; [lia|].
        by apply (proj1 (Forall_forall _ _) Hy).
    + constructor; [by constructor|]. constructor; [lia|].
      apply Forall_forall. intros b Hb.
      pose proof (proj1 (Forall_forall _ _) Hy b Hb) as Hyb. simpl in Hyb. lia.
Qed.

Lemma insertion_sort_ascending (A : Type) (key : A -> Z) (compare : A -> A -> JSNumber)
    (l : list A) :
  (forall a b, a ∈ l -> b ∈ l -> compare a b = Num (key a - key b)%Z) ->
  Sorted.StronglySorted (fun a b => (key a <= key b)%Z) (insertion_sort compare l).
Proof.
  induction l as [|x l IH]; intros Hcompare; [constructor|].
  cbn [insertion_sort foldr]. apply insert_sorted_ascending.
  - intros b Hb. apply Hcompare; [by left|].
    rewrite (insertion_sort_permutation A compare l) in Hb.
    by right.
  - apply IH. intros a b Ha Hb. apply Hcompare; by right.
Qed.

#[export] Instance array_sort : ArraySort := {|
  sort := @insertion_sort;
  sort_permutation := insertion_sort_permutation;
  sort_ascending := insertion_sort_ascending
|}.

(** The start times of the examples: a morning and an afternoon of the
    first of January 2024 and a morning of the second, in UTC; the other
    texts the examples use are not dates. *)
Definition date_table : list (string * Z) :=
  [ ("2024-01-01T09:00:00.000Z", 1704099600000);
    ("2024-01-01T15:00:00.000Z", 1704121200000);
    ("2024-01-02T09:00:00.000Z", 1704186000000) ].

#[export] Instance dates : Dates := {|
  Date_parse s :=
    match List.find (fun entry => String.eqb (fst entry) s) date_table with
    | Some entry => Num (snd entry)
    | None => NaN
    end
|}.

Definition slot (id : Z) (start : string) : Slots.Slot Z :=
  {| Slots.slot_id := id; Slots.startAt := start; Slots.endAt := start |}.

(** Three slots as the API may list them, the afternoon before the
    morning. *)
Definition week : list (Slots.Slot Z) :=
  [ slot 3 "2024-01-01T15:00:00.000Z";
    slot 4 "2024-01-02T09:00:00.000Z";
    slot 1 "2024-01-01T09:00:00.000Z" ].

End Engine.

(** ** The administrator's list of bookings ([fetchAllBookings]) *)

Module Admin.

(** [v.length]: the number of elements of an array, the length of a
    string, an own property of an object, [undefined] on the other
    non-nullish values. *)
Definition get_length (v : JSValue) : Completion JSValue :=
  match v with
  | JArray elems => Normal (JNumber (Num (Z.of_nat (length elems))))
  | JString s => Normal (JNumber (Num (Z.of_nat (String.length s))))
  | _ => get_prop v "length"
  end.

(** The state of [AdminDashboard] that [fetchAllBookings] touches;
    [bookings] is whatever the server sent. *)
Record State : Type := {
  bookings : JSValue;
  pagination : list (string * JSValue);
  admin_loading : bool;
  admin_messages : MessagesState
}.

(** [useState([])] and
    [useState({ page: 1, limit: 20, total: 0, totalPages: 0 })] *)
Definition initial : State :=
  {| bookings := JArray [];
     pagination := [("page", JNumber (Num 1)); ("limit", JNumber (Num 20));
                    ("total", JNumber (Num 0)); ("totalPages", JNumber (Num 0))];
     admin_loading := true;
     admin_messages := no_messages |}.

Section Admin.
Context `{Host}.

(** The body of the [try]: the new bookings and pagination, or what was
    thrown; [page = 1] when no page is passed. *)
Definition load (page : JSValue) (reply : FetchReply) (st : State)
    : Eff World (JSValue * list (string * JSValue)) :=
  let page := match page with JUndefined => JNumber (Num 1) | _ => page end in
  let call := CallSites.AllBookings page (lookup_prop "limit" (pagination st)) in
  response ← apiRequest (CallSites.endpoint_of call) (CallSites.options_of call) reply;
  listed ← lift (get_prop response "bookings");
  if truthy listed then
    envelope ← lift (get_prop response "pagination");
    mret (listed, spread (spread [] (JObject (pagination st))) envelope)
  else
    total ← lift (get_length response);
    mret (response,
          set_prop "totalPages" (JNumber (Num 1))
            (set_prop "total" total (spread [] (JObject (pagination st))))).

(** [fetchAllBookings(page)]; the handler resumes when [Date.now()] is
    [later]. *)
Definition fetchAllBookings (page : JSValue) (later : Z) (reply : FetchReply)
    (w : World) (st : State) : World * State :=
  let '(w', outcome) := load page reply st w in
  (w',
   match outcome with
   | Normal (listed, pages) =>
       {| bookings := listed; pagination := pages; admin_loading := false;
          admin_messages := admin_messages st |}
   | Throw err =>
       {| bookings := bookings st; pagination := pagination st; admin_loading := false;
          admin_messages := addError later (message err) (admin_messages st) |}
   end).

End Admin.
End Admin.

(** * Properties *)

Ltac run :=
  unfold mbind, mret, Eff_bind, Eff_ret, Completion_bind, Completion_ret,
    try_catch, throw, lift, gets, modify in *.

(** ** Session store *)

Section SessionFacts.
Context `{Host}.

Lemma clearStorage_run (w : World) : clearStorage w = (signed_out w, Normal tt).
Proof. reflexivity. Qed.

Lemma signed_out_token (w : World) : localStorage (signed_out w) !! "token" = None.
Proof.
  unfold signed_out; simpl.
  rewrite lookup_delete_ne by done. apply lookup_delete_eq.
Qed.

Lemma signed_out_user (w : World) : localStorage (signed_out w) !! "user" = None.
Proof. unfold signed_out; simpl. apply lookup_delete_eq. Qed.

Lemma signed_out_other (w : World) (k : string) :
  k ≠ "token" -> k ≠ "user" ->
  localStorage (signed_out w) !! k = localStorage w !! k.
Proof.
  intros Ht Hu. unfold signed_out; simpl.
  rewrite !lookup_delete_ne by done. reflexivity.
Qed.

Lemma nonempty_eqb (s : string) : s ≠ "" -> String.eqb s "" = false.
Proof. intros Hs. by apply String.eqb_neq. Qed.

(** Without a truthy token and a truthy user entry the effect only ends
    the loading state. *)
Lemma initialize_skips (now : Z) (w : World) :
  truthy_item (localStorage w !! "token") && truthy_item (localStorage w !! "user") = false ->
  initialize now w = (set_loading false w, Normal tt).
Proof.
  intros Hskip. unfold initialize, getItem. run. simpl.
  destruct (localStorage w !! "token") as [t|]; [|reflexivity].
  destruct (localStorage w !! "user") as [u|]; [|reflexivity].
  simpl in Hskip. rewrite Hskip. reflexivity.
Qed.

(** With both entries truthy the effect runs the check, and whatever the
    check throws is caught and answered by clearing the storage. *)
Lemma initialize_checks (now : Z) (w : World) (t u : string) :
  localStorage w !! "token" = Some t -> t ≠ "" ->
  localStorage w !! "user" = Some u -> u ≠ "" ->
  initialize now w =
    match verifyToken t u now w with
    | (w', Normal _) => (set_loading false w', Normal tt)
    | (w', Throw _) => (set_loading false (signed_out w'), Normal tt)
    end.
Proof.
  intros Ht Hne Hu Hnu. unfold initialize, getItem. run. simpl.
  rewrite Ht, Hu, (nonempty_eqb _ Hne), (nonempty_eqb _ Hnu). simpl.
  destruct (verifyToken t u now w) as [w' [[]|e]]; reflexivity.
Qed.

Lemma verifyToken_undecodable (t u : string) (now : Z) (w : World) (err : JSError) :
  decodePayload t = Throw err -> verifyToken t u now w = (w, Throw err).
Proof. intros Hd. unfold verifyToken. run. rewrite Hd. reflexivity. Qed.

Lemma verifyToken_stale (t u : string) (now : Z) (w : World) (payload exp : JSValue) :
  decodePayload t = Normal payload ->
  get_prop payload "exp" = Normal exp ->
  gt (mul (ToNumber exp) (Num 1000)) (Num now) = false ->
  verifyToken t u now w = (signed_out w, Normal tt).
Proof.
  intros Hd He Hgt. unfold verifyToken. run. rewrite Hd, He, Hgt. reflexivity.
Qed.

Lemma verifyToken_fresh (t u : string) (now : Z) (w : World) (payload exp : JSValue) :
  decodePayload t = Normal payload ->
  get_prop payload "exp" = Normal exp ->
  gt (mul (ToNumber exp) (Num 1000)) (Num now) = true ->
  verifyToken t u now w =
    match JSON_parse u with
    | Normal parsed => (set_user parsed w, Normal tt)
    | Throw err => (w, Throw err)
    end.
Proof.
  intros Hd He Hgt. unfold verifyToken. run. rewrite Hd, He, Hgt.
  destruct (JSON_parse u); reflexivity.
Qed.

(** The three ways a payload fails to decode: no second segment, a
    segment that is not base64, a decoded text that is not JSON. *)
Lemma decodePayload_throws (t : string) (err : JSError) :
  decodePayload t = Throw err <->
  (split "." t !! 1%nat = None /\ err = invalid_character)
  \/ (exists segment, split "." t !! 1%nat = Some segment /\ atob segment = Throw err)
  \/ (exists segment text, split "." t !! 1%nat = Some segment
        /\ atob segment = Normal text /\ JSON_parse text = Throw err).
Proof.
  unfold decodePayload. run.
  destruct (split "." t !! 1%nat) as [segment|] eqn:Hseg.
  - destruct (atob segment) as [text|e] eqn:Hatob.
    + split.
      * intros Hp. right; right. by exists segment, text.
      * intros [[? _]|[(s & Hs & Ha)|(s & x & Hs & Ha & Hp)]];
          [done|congruence|congruence].
    + split.
      * intros [= ->]. right; left. by exists segment.
      * intros [[? _]|[(s & Hs & Ha)|(s & x & Hs & Ha & Hp)]];
          [done|congruence|congruence].
  - change (atob (ToString JUndefined)) with (@Throw string invalid_character).
    split.
    + intros [= <-]. by left.
    + intros [[_ ->]|[(s & Hs & _)|(s & x & Hs & _)]]; done.
Qed.

(** A token without a dot is its own and only segment. *)
Lemma split_no_separator (t : string) :
  (forall c, In c (String.list_ascii_of_string t) -> c ≠ "."%char) ->
  split "." t = [t].
Proof.
  induction t as [|c t IH]; intros Hdot; [reflexivity|].
  simpl. destruct (Ascii.eqb_spec c ".") as [->|_].
  - exfalso. apply (Hdot "."%char); [by left|reflexivity].
  - rewrite IH; [reflexivity|]. intros c' Hin. apply Hdot. by right.
Qed.

(** Such a token has no payload segment and does not decode. *)
Lemma decodePayload_no_segment (t : string) :
  (forall c, In c (String.list_ascii_of_string t) -> c ≠ "."%char) ->
  decodePayload t = Throw invalid_character.
Proof.
  intros Hdot. apply decodePayload_throws. left.
  by rewrite (split_no_separator t Hdot).
Qed.

Lemma signed_out_again (w : World) : signed_out (signed_out w) = signed_out w.
Proof.
  unfold signed_out, set_localStorage; simpl. f_equal.
  rewrite (delete_id (delete "user" _) "token").
  - apply delete_delete_eq.
  - rewrite lookup_delete_ne by done. apply lookup_delete_eq.
Qed.

Lemma signed_out_replaced_token (w : World) (t : string) :
  signed_out (set_localStorage (insert "token" t) w) = signed_out w.
Proof.
  unfold signed_out, set_localStorage; simpl. f_equal.
  by rewrite delete_insert_eq.
Qed.

Lemma logout_run (w : World) : logout w = (set_user JNull (signed_out w), Normal tt).
Proof. reflexivity. Qed.

(** An expiry that is not later than the current time clears the
    storage. *)
Lemma initialize_stale (now : Z) (w : World) (t u : string) (payload exp : JSValue) :
  localStorage w !! "token" = Some t -> t ≠ "" ->
  localStorage w !! "user" = Some u -> u ≠ "" ->
  decodePayload t = Normal payload ->
  get_prop payload "exp" = Normal exp ->
  gt (mul (ToNumber exp) (Num 1000)) (Num now) = false ->
  initialize now w = (set_loading false (signed_out w), Normal tt).
Proof.
  intros Ht Hne Hu Hnu Hd He Hgt.
  rewrite (initialize_checks now w t u Ht Hne Hu Hnu).
  by rewrite (verifyToken_stale t u now w payload exp Hd He Hgt).
Qed.

Lemma initialize_fresh (now : Z) (w : World) (t u : string) (payload exp : JSValue) :
  localStorage w !! "token" = Some t -> t ≠ "" ->
  localStorage w !! "user" = Some u -> u ≠ "" ->
  decodePayload t = Normal payload ->
  get_prop payload "exp" = Normal exp ->
  gt (mul (ToNumber exp) (Num 1000)) (Num now) = true ->
  initialize now w =
    match JSON_parse u with
    | Normal parsed => (set_loading false (set_user parsed w), Normal tt)
    | Throw _ => (set_loading false (signed_out w), Normal tt)
    end.
Proof.
  intros Ht Hne Hu Hnu Hd He Hgt.
  rewrite (initialize_checks now w t u Ht Hne Hu Hnu).
  rewrite (verifyToken_fresh t u now w payload exp Hd He Hgt).
  by destruct (JSON_parse u).
Qed.

(** C2 (as amended). When a non-empty token and a non-empty user entry
    are persisted at startup and the token payload decodes to an expiry [e]
    in seconds: if [e * 1000] is later than the current time and the user
    entry parses as JSON, the session becomes the parsed user data and the
    storage is kept; if the user entry does not parse, or [e * 1000] is
    not later than the current time, both keys are removed and the session
    stays absent. In every case the effect completes normally and ends the
    loading state. *)
Theorem initialize_rehydration (now : Z) (storage : gmap string string) (t u : string)
    (payload : JSValue) (e : Z) :
  storage !! "token" = Some t -> t ≠ "" ->
  storage !! "user" = Some u -> u ≠ "" ->
  decodePayload t = Normal payload ->
  get_prop payload "exp" = Normal (JNumber (Num e)) ->
  (now < e * 1000 -> forall parsed, JSON_parse u = Normal parsed ->
     initialize now (startup storage)
     = ({| localStorage := storage; user := parsed; loading := false;
           reloads := 0; fetched := [] |}, Normal tt))
  /\ (now < e * 1000 -> forall err, JSON_parse u = Throw err ->
     initialize now (startup storage)
     = ({| localStorage := delete "user" (delete "token" storage); user := JNull;
           loading := false; reloads := 0; fetched := [] |}, Normal tt))
  /\ (e * 1000 <= now ->
     initialize now (startup storage)
     = ({| localStorage := delete "user" (delete "token" storage); user := JNull;
           loading := false; reloads := 0; fetched := [] |}, Normal tt)).
Proof.
  intros Ht Hne Hu Hnu Hd He.
  split; [|split].
  - intros Hlt parsed Hp.
    rewrite (initialize_fresh now (startup storage) t u payload _ Ht Hne Hu Hnu Hd He),
      Hp; [reflexivity|].
    simpl. by apply Z.ltb_lt.
  - intros Hlt err Hp.
    rewrite (initialize_fresh now (startup storage) t u payload _ Ht Hne Hu Hnu Hd He),
      Hp; [reflexivity|].
    simpl. by apply Z.ltb_lt.
  - intros Hle.
    apply (initialize_stale now (startup storage) t u payload _ Ht Hne Hu Hnu Hd He).
    simpl. apply Z.ltb_ge. lia.
Qed.

(** The outcome of the startup effect when the stored token does not
    decode or has expired: cleared if a user entry is stored with it,
    untouched otherwise. *)
Lemma initialize_rejects (now : Z) (storage : gmap string string) (t : string) :
  storage !! "token" = Some t -> t ≠ "" ->
  ((exists err, decodePayload t = Throw err)
   \/ (exists payload e, decodePayload t = Normal payload
        /\ get_prop payload "exp" = Normal (JNumber (Num e)) /\ e * 1000 <= now)) ->
  initialize now (startup storage)
  = (set_loading false
       (if truthy_item (storage !! "user") then signed_out (startup storage)
        else startup storage),
     Normal tt).
Proof.
  intros Ht Hne Hbad.
  destruct (truthy_item (storage !! "user")) eqn:Huser.
  - destruct (storage !! "user") as [u|] eqn:Hu; [|discriminate].
    assert (Hnu : u ≠ "").
    { intros ->. discriminate. }
    destruct Hbad as [[err Hd]|(payload & e & Hd & He & Hle)].
    + rewrite (initialize_checks now (startup storage) t u Ht Hne Hu Hnu).
      by rewrite (verifyToken_undecodable t u now (startup storage) err Hd).
    + apply (initialize_stale now (startup storage) t u payload _ Ht Hne Hu Hnu Hd He).
      simpl. apply Z.ltb_ge. lia.
  - apply initialize_skips. simpl. rewrite Huser. apply andb_false_r.
Qed.

(** C4. A stored non-empty token whose payload cannot be decoded never
    makes the startup effect throw and leaves the session absent; with a
    non-empty user entry stored next to it, as in the expired-token case,
    both keys are removed. The outcome is the one of an expired token
    stored in its place: same completion, same session, same loading
    state, and the same storage. Stored without a user entry, or next to
    an empty one, the token is not decoded and the storage is kept as it
    is. *)
Theorem initialize_undecodable_token (now : Z) (storage : gmap string string)
    (t : string) (err : JSError) :
  storage !! "token" = Some t -> t ≠ "" ->
  decodePayload t = Throw err ->
  snd (initialize now (startup storage)) = Normal tt
  /\ user (fst (initialize now (startup storage))) = JNull
  /\ (forall u, storage !! "user" = Some u -> u ≠ "" ->
        initialize now (startup storage)
        = ({| localStorage := delete "user" (delete "token" storage); user := JNull;
              loading := false; reloads := 0; fetched := [] |}, Normal tt))
  /\ (forall t' payload e,
        t' ≠ "" -> decodePayload t' = Normal payload ->
        get_prop payload "exp" = Normal (JNumber (Num e)) -> e * 1000 <= now ->
        let expired := initialize now (startup (<["token" := t']> storage)) in
        let undecodable := initialize now (startup storage) in
        snd expired = snd undecodable
        /\ user (fst expired) = user (fst undecodable)
        /\ loading (fst expired) = loading (fst undecodable)
        /\ (forall k, k ≠ "token" ->
              localStorage (fst expired) !! k = localStorage (fst undecodable) !! k)
        /\ (localStorage (fst expired) !! "token" = None
            <-> localStorage (fst undecodable) !! "token" = None))
  /\ (storage !! "user" = None \/ storage !! "user" = Some "" ->
      initialize now (startup storage) = (set_loading false (startup storage), Normal tt)).
Proof.
  intros Ht Hne Hd.
  pose proof (initialize_rejects now storage t Ht Hne (or_introl (ex_intro _ err Hd)))
    as Hrun.
  split; [by rewrite Hrun|split; [|split; [|split]]].
  4:{ intros Halone. apply initialize_skips. simpl.
      destruct Halone as [-> | ->]; apply andb_false_r. }
  - rewrite Hrun. by destruct (truthy_item (storage !! "user")).
  - intros u Hu Hnu. rewrite Hrun, Hu. simpl. by rewrite (nonempty_eqb u Hnu).
  - intros t' payload e Hne' Hd' He Hle. cbv zeta. rewrite Hrun.
    rewrite (initialize_rejects now (<["token" := t']> storage) t');
      [|apply lookup_insert_eq|done|right; by exists payload, e].
    rewrite lookup_insert_ne by done.
    destruct (truthy_item (storage !! "user")); simpl.
    + rewrite delete_insert_eq. done.
    + repeat split; try done.
      * intros k Hk. by rewrite lookup_insert_ne.
      * rewrite lookup_insert_eq. done.
      * rewrite Ht. done.
Qed.

(** C7. [logout] completes normally from any state, leaves neither
    persisted key and an absent session; a second call changes nothing;
    and the startup effect run after it leaves the session absent,
    whether it runs on the state [logout] left or on a freshly loaded page
    over the storage [logout] left. *)
Theorem logout_idempotent_teardown (w : World) (now : Z) :
  snd (logout w) = Normal tt
  /\ localStorage (fst (logout w)) !! "token" = None
  /\ localStorage (fst (logout w)) !! "user" = None
  /\ user (fst (logout w)) = JNull
  /\ logout (fst (logout w)) = (fst (logout w), Normal tt)
  /\ snd (initialize now (fst (logout w))) = Normal tt
  /\ user (fst (initialize now (fst (logout w)))) = JNull
  /\ initialize now (startup (localStorage (fst (logout w))))
      = (set_loading false (startup (localStorage (fst (logout w)))), Normal tt).
Proof.
  rewrite logout_run; simpl.
  assert (Htok : (delete "user" (delete "token" (localStorage w)) : gmap string string)
                   !! "token" = None).
  { rewrite lookup_delete_ne by done. apply lookup_delete_eq. }
  repeat split.
  - exact Htok.
  - apply lookup_delete_eq.
  - rewrite logout_run. f_equal.
    change (signed_out (set_user JNull (signed_out w)))
      with (set_user JNull (signed_out (signed_out w))).
    by rewrite signed_out_again.
  - rewrite initialize_skips; [reflexivity|]. simpl. by rewrite Htok.
  - rewrite initialize_skips; [reflexivity|]. simpl. by rewrite Htok.
  - apply initialize_skips. simpl. by rewrite Htok.
Qed.

End SessionFacts.

Section SessionExamples.
#[local] Existing Instance Fixture.host.

(** Rehydration, an unparseable user entry and expiry, on the sample
    data. *)
Lemma initialize_rehydration_witness :
  initialize Fixture.now
    (startup (Fixture.session Fixture.valid_token Fixture.profile_text))
  = ({| localStorage := Fixture.session Fixture.valid_token Fixture.profile_text;
        user := Fixture.profile; loading := false; reloads := 0; fetched := [] |},
     Normal tt)
  /\ initialize Fixture.now (startup (Fixture.session Fixture.valid_token "{"))
     = ({| localStorage := ∅; user := JNull; loading := false;
           reloads := 0; fetched := [] |}, Normal tt)
  /\ initialize Fixture.now
       (startup (Fixture.session Fixture.expired_token Fixture.profile_text))
     = ({| localStorage := ∅; user := JNull; loading := false;
           reloads := 0; fetched := [] |}, Normal tt).
Proof.
  split; [|split].
  - destruct (initialize_rehydration Fixture.now
                (Fixture.session Fixture.valid_token Fixture.profile_text)
                Fixture.valid_token Fixture.profile_text
                (Fixture.exp_payload 9999999999) 9999999999)
      as (Hfresh & _ & _); [reflexivity|done|reflexivity|done|reflexivity|reflexivity|].
    apply Hfresh; reflexivity.
  - destruct (initialize_rehydration Fixture.now
                (Fixture.session Fixture.valid_token "{")
                Fixture.valid_token "{" (Fixture.exp_payload 9999999999) 9999999999)
      as (_ & Hbad & _); [reflexivity|done|reflexivity|done|reflexivity|reflexivity|].
    apply (Hbad eq_refl Fixture.syntax_error). reflexivity.
  - destruct (initialize_rehydration Fixture.now
                (Fixture.session Fixture.expired_token Fixture.profile_text)
                Fixture.expired_token Fixture.profile_text (Fixture.exp_payload 1) 1)
      as (_ & _ & Hold); [reflexivity|done|reflexivity|done|reflexivity|reflexivity|].
    apply Hold. done.
Defined.

(** C2 as stated fails: the token expires in the future, yet the session
    stays absent and the storage is emptied, because the persisted user
    entry is not JSON. *)
Lemma initialize_unparseable_user :
  let storage := Fixture.session Fixture.valid_token "{" in
  let w := fst (initialize Fixture.now (startup storage)) in
  storage !! "token" = Some Fixture.valid_token
  /\ storage !! "user" = Some "{"
  /\ decodePayload Fixture.valid_token = Normal (Fixture.exp_payload 9999999999)
  /\ Fixture.now < 9999999999 * 1000
  /\ JSON_parse "{" = Throw Fixture.syntax_error
  /\ user w = JNull
  /\ localStorage w !! "token" = None
  /\ localStorage w !! "user" = None.
Proof. vm_compute. repeat split; reflexivity. Qed.

(** C4 as stated fails: a token without a payload segment stored with no
    user entry is not decoded, and the startup effect leaves it in the
    storage. *)
Lemma undecodable_token_alone_is_kept :
  let storage : gmap string string := <["token" := "not-a-token"]> ∅ in
  let w := fst (initialize Fixture.now (startup storage)) in
  storage !! "token" = Some "not-a-token"
  /\ storage !! "user" = None
  /\ decodePayload "not-a-token" = Throw invalid_character
  /\ snd (initialize Fixture.now (startup storage)) = Normal tt
  /\ user w = JNull
  /\ localStorage w !! "token" = Some "not-a-token"
  /\ localStorage w = storage.
Proof. vm_compute. repeat split; reflexivity. Qed.

(** A token without a payload segment next to a user entry, on the
    sample data, and the expired token in its place. *)
Lemma initialize_undecodable_token_witness :
  initialize Fixture.now (startup (Fixture.session "not-a-token" Fixture.profile_text))
  = ({| localStorage := ∅; user := JNull; loading := false;
        reloads := 0; fetched := [] |}, Normal tt)
  /\ localStorage
       (fst (initialize Fixture.now
               (startup (<["token" := Fixture.expired_token]>
                           (Fixture.session "not-a-token" Fixture.profile_text)))))
       !! "token" = None.
Proof.
  destruct (initialize_undecodable_token Fixture.now
              (Fixture.session "not-a-token" Fixture.profile_text)
              "not-a-token" invalid_character)
    as (_ & _ & Hrun & Hsame & _); [reflexivity|done|reflexivity|].
  split.
  - apply (Hrun Fixture.profile_text); [reflexivity|done].
  - destruct (Hsame Fixture.expired_token (Fixture.exp_payload 1) 1)
      as (_ & _ & _ & _ & Htoken); [done|reflexivity|reflexivity|done|].
    apply Htoken. reflexivity.
Defined.

End SessionExamples.

(** ** API gateway *)

Section GatewayFacts.
Context `{Host}.

(** What [new Error(m)] carries for a string [m]. *)
Lemma new_Error_string (m : string) :
  new_Error (JString m) = {| name := "Error"; message := m |}.
Proof. reflexivity. Qed.

(** An [Error] made by the gateway passes the [catch] unchanged. *)
Lemma on_error_Error (m : JSValue) (w : World) :
  on_error (new_Error m) w = (w, Throw (new_Error m)).
Proof. reflexivity. Qed.

Lemma get_prop_opt_total (v : JSValue) (k : string) :
  exists x, get_prop_opt v k = Normal x.
Proof. destruct v; simpl; eauto. Qed.

(** Every path of [apiRequest], one equation: the request is issued, then
    the reply decides. *)
Lemma apiRequest_run (endpoint : string) (options : Options) (reply : FetchReply)
    (w : World) :
  apiRequest endpoint options reply w =
    let w1 := add_fetched (issued endpoint options w) w in
    match reply with
    | Rejects e => on_error e w1
    | Responds r =>
        match json r with
        | Throw e => on_error e w1
        | Normal data =>
            if ok r then (w1, Normal data)
            else if (status r =? 401) || (status r =? 403)
            then (add_reload (signed_out w1), Normal JUndefined)
            else match get_prop data "error" with
                 | Throw e => on_error e w1
                 | Normal error =>
                     match get_prop_opt error "message" with
                     | Throw e => on_error e w1
                     | Normal msg =>
                         (w1, Throw (new_Error (or_else msg (JString (http_fallback r)))))
                     end
                 end
        end
    end.
Proof.
  unfold apiRequest, request, fetch, getItem, issued. run. simpl.
  destruct reply as [e|r]; simpl; [reflexivity|].
  destruct (json r) as [data|e]; simpl; [|reflexivity].
  destruct (ok r); simpl; [reflexivity|].
  destruct ((status r =? 401) || (status r =? 403)); simpl; [reflexivity|].
  destruct (get_prop data "error") as [error|e]; simpl; [|reflexivity].
  destruct (get_prop_opt error "message") as [msg|e]; simpl; reflexivity.
Qed.

(** A call issues exactly one [fetch], whatever the reply. *)
Lemma apiRequest_fetched (endpoint : string) (options : Options) (reply : FetchReply)
    (w : World) :
  fetched (fst (apiRequest endpoint options reply w))
  = fetched w ++ [issued endpoint options w].
Proof.
  rewrite apiRequest_run. cbv zeta.
  assert (Hon : forall e w', fetched (fst (on_error e w')) = fetched w').
  { intros e w'. unfold on_error, throw. by destruct (_ && _). }
  destruct reply as [e|r]; [by rewrite Hon|].
  destruct (json r) as [data|e]; [|by rewrite Hon].
  destruct (ok r); [reflexivity|].
  destruct (_ || _); [reflexivity|].
  destruct (get_prop data "error") as [error|e]; [|by rewrite Hon].
  destruct (get_prop_opt error "message") as [msg|e]; [reflexivity|by rewrite Hon].
Qed.

(** A call never touches the state of [AuthProvider]. *)
Lemma apiRequest_user (endpoint : string) (options : Options) (reply : FetchReply)
    (w : World) :
  user (fst (apiRequest endpoint options reply w)) = user w.
Proof.
  rewrite apiRequest_run. cbv zeta.
  assert (Hon : forall e w', user (fst (on_error e w')) = user w').
  { intros e w'. unfold on_error, throw. by destruct (_ && _). }
  destruct reply as [e|r]; [by rewrite Hon|].
  destruct (json r) as [data|e]; [|by rewrite Hon].
  destruct (ok r); [reflexivity|].
  destruct (_ || _); [reflexivity|].
  destruct (get_prop data "error") as [error|e]; [|by rewrite Hon].
  destruct (get_prop_opt error "message") as [msg|e]; [reflexivity|by rewrite Hon].
Qed.




Lemma not_auth_failure (s : Z) :
  s ≠ 401 -> s ≠ 403 -> (s =? 401) || (s =? 403) = false.
Proof. intros. apply orb_false_iff. split; by apply Z.eqb_neq. Qed.

Lemma fallback_is_not_connectivity (r : Response) :
  http_fallback r ≠ connectivity_message.
Proof. unfold http_fallback, connectivity_message. simpl. discriminate. Qed.

End GatewayFacts.

Section GatewayProperties.
Context `{Host}.

Lemma apiRequests_cons (endpoint : string) (options : Options) (reply : FetchReply)
    (calls : list (string * Options * FetchReply)) (w : World) :
  apiRequests ((endpoint, options, reply) :: calls) w
  = apiRequests calls (fst (apiRequest endpoint options reply w)).
Proof. reflexivity. Qed.



(** C1 (as amended). For every endpoint and every options, a response
    with status 401 or 403 whose body parses as JSON makes the gateway
    remove both persisted keys and ask for one reload; the call then
    returns [undefined]: the caller gets neither the response data nor an
    error. *)
Theorem unauthorized_forces_logout (endpoint : string) (options : Options)
    (r : Response) (data : JSValue) (w : World) :
  status r = 401 \/ status r = 403 ->
  json r = Normal data ->
  let w' := fst (apiRequest endpoint options (Responds r) w) in
  snd (apiRequest endpoint options (Responds r) w) = Normal JUndefined
  /\ localStorage w' !! "token" = None
  /\ localStorage w' !! "user" = None
  /\ reloads w' = S (reloads w)
  /\ w' = add_reload (signed_out (add_fetched (issued endpoint options w) w)).
Proof.
  intros Hstatus Hjson. cbv zeta. rewrite apiRequest_run. cbv zeta. rewrite Hjson.
  assert (Hok : ok r = false) by (unfold ok; destruct Hstatus as [->| ->]; reflexivity).
  assert (Hauth : (status r =? 401) || (status r =? 403) = true)
    by (destruct Hstatus as [->| ->]; reflexivity).
  rewrite Hok, Hauth. simpl.
  repeat split.
  - rewrite lookup_delete_ne by done. apply lookup_delete_eq.
  - apply lookup_delete_eq.
Qed.

(** C3 (as amended). For a response that is not 2xx, 401 or 403 and whose
    body parses as JSON to a value other than [null], if the body has no
    truthy [error.message] (no [error], an [error] without [message], or a
    falsy [message]), the gateway throws an [Error] whose message is
    exactly [HTTP <status>: <statusText>]. *)
Theorem fallback_error_message (endpoint : string) (options : Options)
    (r : Response) (data error msg : JSValue) (w : World) :
  ok r = false -> status r ≠ 401 -> status r ≠ 403 ->
  json r = Normal data ->
  get_prop data "error" = Normal error ->
  get_prop_opt error "message" = Normal msg ->
  truthy msg = false ->
  apiRequest endpoint options (Responds r) w
  = (add_fetched (issued endpoint options w) w,
     Throw {| name := "Error";
              message := "HTTP " +:+ pretty (status r) +:+ ": " +:+ statusText r |}).
Proof.
  intros Hok H401 H403 Hjson Herror Hmsg Hfalsy.
  rewrite apiRequest_run. cbv zeta.
  rewrite Hjson, Hok, (not_auth_failure _ H401 H403), Herror, Hmsg.
  unfold or_else. rewrite Hfalsy. reflexivity.
Qed.

(** C5 (as amended). For a response that is not 2xx, 401 or 403 whose
    JSON body has an [error] object with a non-empty string [message] X,
    the gateway throws an [Error] whose message is exactly X. *)
Theorem server_error_message (endpoint : string) (options : Options)
    (r : Response) (props error_props : list (string * JSValue)) (X : string)
    (w : World) :
  ok r = false -> status r ≠ 401 -> status r ≠ 403 ->
  json r = Normal (JObject props) ->
  lookup_prop "error" props = JObject error_props ->
  lookup_prop "message" error_props = JString X ->
  X ≠ "" ->
  apiRequest endpoint options (Responds r) w
  = (add_fetched (issued endpoint options w) w,
     Throw {| name := "Error"; message := X |}).
Proof.
  intros Hok H401 H403 Hjson Herror Hmsg HX.
  rewrite apiRequest_run. cbv zeta.
  rewrite Hjson, Hok, (not_auth_failure _ H401 H403). simpl.
  rewrite Herror. simpl. rewrite Hmsg.
  unfold or_else. simpl. rewrite (proj2 (String.eqb_neq X "") HX). reflexivity.
Qed.

(** C6 (as amended). When [fetch] rejects with a [TypeError] whose
    message contains [fetch], the gateway throws an [Error] with the
    message [Unable to connect to server. Please check your connection.];
    any other rejection reaches the caller unchanged. The connectivity
    message differs from every [HTTP <status>: <statusText>] fallback. *)
Theorem connectivity_error_message (endpoint : string) (options : Options)
    (e : JSError) (w : World) :
  (name e = "TypeError" -> includes "fetch" (message e) = true ->
   apiRequest endpoint options (Rejects e) w
   = (add_fetched (issued endpoint options w) w,
      Throw {| name := "Error";
               message := "Unable to connect to server. Please check your connection." |}))
  /\ (name e ≠ "TypeError" \/ includes "fetch" (message e) = false ->
      apiRequest endpoint options (Rejects e) w
      = (add_fetched (issued endpoint options w) w, Throw e))
  /\ (forall r : Response,
        http_fallback r ≠ "Unable to connect to server. Please check your connection.").
Proof.
  split; [|split].
  - intros Hname Hfetch. rewrite apiRequest_run. cbv zeta.
    unfold on_error. rewrite Hname, Hfetch. reflexivity.
  - intros Hother. rewrite apiRequest_run. cbv zeta. unfold on_error.
    destruct Hother as [Hname|Hfetch].
    + by rewrite (proj2 (String.eqb_neq _ _) Hname).
    + rewrite Hfetch. by rewrite andb_false_r.
  - apply fallback_is_not_connectivity.
Qed.


End GatewayProperties.

Section GatewayExamples.
#[local] Existing Instance Fixture.host.

(** A 403 with a JSON body signs the page out. *)
Lemma unauthorized_forces_logout_witness :
  let w' := fst (apiRequest "/all-bookings?page=1&limit=10" no_options
                   (Responds Fixture.forbidden) Fixture.signed_in) in
  snd (apiRequest "/all-bookings?page=1&limit=10" no_options
         (Responds Fixture.forbidden) Fixture.signed_in) = Normal JUndefined
  /\ localStorage w' !! "token" = None
  /\ localStorage w' !! "user" = None
  /\ reloads w' = 1%nat.
Proof.
  destruct (unauthorized_forces_logout "/all-bookings?page=1&limit=10" no_options
              Fixture.forbidden (Fixture.error_envelope "Admin access required") Fixture.signed_in)
    as (Hres & Htok & Huser & Hreload & _); [by right|reflexivity|].
  cbv zeta. by rewrite Hres, Htok, Huser, Hreload.
Defined.

(** C1 as stated fails: a 401 whose body is empty is not JSON, so
    [response.json()] throws before the status is looked at; both keys
    stay, no reload is asked for and the caller receives the parse
    error. *)
Lemma unauthorized_unparseable_body :
  let run := apiRequest "/my-bookings" no_options
               (Responds Fixture.unauthorized_empty_body) Fixture.signed_in in
  status Fixture.unauthorized_empty_body = 401
  /\ localStorage (fst run) !! "token" = Some Fixture.valid_token
  /\ localStorage (fst run) !! "user" = Some Fixture.profile_text
  /\ reloads (fst run) = 0%nat
  /\ snd run = Throw Fixture.syntax_error.
Proof. vm_compute. repeat split; reflexivity. Qed.

(** A 400 whose body is the empty object, and one whose [error] has no
    [message]. *)
Lemma fallback_error_message_witness :
  snd (apiRequest "/book" no_options
         (Responds (Fixture.bad_request (JObject []))) Fixture.signed_in)
  = Throw {| name := "Error"; message := "HTTP 400: Bad Request" |}
  /\ snd (apiRequest "/book" no_options
            (Responds (Fixture.bad_request
                         (JObject [("error", JObject [("code", JString "TAKEN")])])))
            Fixture.signed_in)
     = Throw {| name := "Error"; message := "HTTP 400: Bad Request" |}.
Proof.
  split.
  - rewrite (fallback_error_message "/book" no_options
               (Fixture.bad_request (JObject [])) (JObject []) JUndefined JUndefined
               Fixture.signed_in); done.
  - rewrite (fallback_error_message "/book" no_options
               (Fixture.bad_request
                  (JObject [("error", JObject [("code", JString "TAKEN")])]))
               (JObject [("error", JObject [("code", JString "TAKEN")])])
               (JObject [("code", JString "TAKEN")]) JUndefined Fixture.signed_in); done.
Defined.

(** C3 as stated fails on a body that is not JSON: the caller receives the
    parse error, not the [HTTP <status>: <statusText>] message. *)
Lemma unparseable_body_error :
  let run := apiRequest "/book" no_options
               (Responds Fixture.server_error_no_body) Fixture.signed_in in
  ok Fixture.server_error_no_body = false
  /\ status Fixture.server_error_no_body = 500
  /\ json Fixture.server_error_no_body = Throw Fixture.syntax_error
  /\ snd run = Throw Fixture.syntax_error
  /\ message Fixture.syntax_error ≠ http_fallback Fixture.server_error_no_body.
Proof. vm_compute. repeat split; try reflexivity. discriminate. Qed.

(** A 400 with the error envelope of the API. *)
Lemma server_error_message_witness :
  snd (apiRequest "/book" no_options
         (Responds (Fixture.bad_request (Fixture.error_envelope "Slot already booked")))
         Fixture.signed_in)
  = Throw {| name := "Error"; message := "Slot already booked" |}.
Proof.
  rewrite (server_error_message "/book" no_options
             (Fixture.bad_request (Fixture.error_envelope "Slot already booked"))
             [("error", JObject [("message", JString "Slot already booked")])]
             [("message", JString "Slot already booked")]
             "Slot already booked" Fixture.signed_in); done.
Defined.

(** C5 as stated fails for the empty message: it is falsy, so the fallback
    takes its place. *)
Lemma empty_server_message :
  let r := Fixture.bad_request (Fixture.error_envelope "") in
  json r = Normal (JObject [("error", JObject [("message", JString "")])])
  /\ snd (apiRequest "/book" no_options (Responds r) Fixture.signed_in)
     = Throw {| name := "Error"; message := "HTTP 400: Bad Request" |}
  /\ "HTTP 400: Bad Request" ≠ "".
Proof. vm_compute. repeat split; try reflexivity. discriminate. Qed.

(** Chromium's rejection is turned into the connectivity message; WebKit's
    is passed on. *)
Lemma connectivity_error_message_witness :
  snd (apiRequest "/login" no_options (Rejects Fixture.failed_to_fetch) Fixture.signed_in)
  = Throw {| name := "Error";
             message := "Unable to connect to server. Please check your connection." |}
  /\ snd (apiRequest "/login" no_options (Rejects Fixture.load_failed) Fixture.signed_in)
     = Throw Fixture.load_failed.
Proof.
  split.
  - destruct (connectivity_error_message "/login" no_options Fixture.failed_to_fetch
                Fixture.signed_in) as (Hconn & _ & _).
    rewrite Hconn; reflexivity.
  - destruct (connectivity_error_message "/login" no_options Fixture.load_failed
                Fixture.signed_in) as (_ & Hother & _).
    rewrite Hother; [reflexivity|by right].
Defined.

(** C6 as stated fails: WebKit rejects an unreachable server with a
    [TypeError] whose message is [Load failed]; it does not contain
    [fetch], so the caller receives that error and not the connectivity
    message. *)
Lemma load_failed_rethrown :
  let run := apiRequest "/login" no_options (Rejects Fixture.load_failed) Fixture.signed_in in
  snd run = Throw Fixture.load_failed
  /\ message Fixture.load_failed ≠ connectivity_message.
Proof. vm_compute. split; [reflexivity|discriminate]. Qed.


End GatewayExamples.

(** ** Transient messages *)

Section MessagesFacts.

Lemma elem_of_without (id : Z) (prev : list Message) (m : Message) :
  m ∈ without id prev <-> m ∈ prev /\ msg_id m ≠ id.
Proof.
  unfold without. rewrite !list_elem_of_In, filter_In.
  rewrite negb_true_iff, Z.eqb_neq. reflexivity.
Qed.

(** Filtering on an identifier that no message bears keeps the list. *)
Lemma without_absent (id : Z) (prev : list Message) :
  id ∉ map msg_id prev -> without id prev = prev.
Proof.
  induction prev as [|m prev IH]; intros Hid; [reflexivity|].
  cbn [without List.filter]. cbn [map] in Hid.
  apply not_elem_of_cons in Hid as [Hm Hprev].
  destruct (Z.eqb_spec (msg_id m) id) as [Heq|_]; [congruence|].
  simpl. f_equal. by apply IH.
Qed.

Lemma without_app (id : Z) (l1 l2 : list Message) :
  without id (l1 ++ l2) = without id l1 ++ without id l2.
Proof. unfold without. apply List.filter_app. Qed.

(** Running the callbacks of a batch of timeouts removes every message
    whose identifier one of them captured, and keeps the pending list. *)
Lemma expire_batch (due : list (Z * Z)) (st : MessagesState) :
  let st' := fold_left (fun acc timer => expire (snd timer) acc) due st in
  timers st' = timers st
  /\ forall m, m ∈ messages st' <->
               m ∈ messages st /\ forall timer, timer ∈ due -> msg_id m ≠ snd timer.
Proof.
  revert st. induction due as [|timer due IH]; intros st; cbn [fold_left].
  - split; [reflexivity|]. intros m. split; [|tauto].
    intros Hm. split; [done|]. intros timer Hin. by apply elem_of_nil in Hin.
  - destruct (IH (expire (snd timer) st)) as [Htimers Hmsgs]. split; [exact Htimers|].
    intros m. rewrite Hmsgs. cbn [expire messages]. rewrite elem_of_without.
    split.
    + intros [[Hm Hne] Hrest]. split; [done|].
      intros timer' Hin. apply elem_of_cons in Hin as [->|Hin]; auto.
    + intros [Hm Hall]. split; [split|].
      * done.
      * apply Hall. by left.
      * intros timer' Hin. apply Hall. by right.
Qed.

(** C10. The identifier of a message is the value of [Date.now()] at its
    creation, so two [addMessage] calls in the same millisecond append two
    messages with the same identifier (and two timeouts that captured
    it). Removing that identifier, by [removeMessage] or by the callback
    of either timeout, removes both, and in general every message bearing
    the identifier and no other; once the clock has passed the delay of
    five seconds no message with that identifier is left.
    [removeMessage] with an identifier that no message bears leaves the
    state unchanged. *)
Theorem same_millisecond_messages (now : Z) (m1 t1 m2 t2 : string) (st : MessagesState) :
  let first := {| msg_id := now; msg_message := m1; msg_type := t1 |} in
  let second := {| msg_id := now; msg_message := m2; msg_type := t2 |} in
  let st2 := addMessage now m2 t2 (addMessage now m1 t1 st) in
  messages st2 = messages st ++ [first; second]
  /\ msg_id first = msg_id second
  /\ timers st2 = timers st ++ [(now + 5000, now); (now + 5000, now)]
  /\ messages (removeMessage now st2) = without now (messages st)
  /\ messages (expire now st2) = without now (messages st)
  /\ (forall t m, now + 5000 <= t -> m ∈ messages (advance t st2) -> msg_id m ≠ now)
  /\ (forall id st' m,
        m ∈ messages (removeMessage id st') <-> m ∈ messages st' /\ msg_id m ≠ id)
  /\ (forall id st' m,
        m ∈ messages (expire id st') <-> m ∈ messages st' /\ msg_id m ≠ id)
  /\ (forall id st', id ∉ map msg_id (messages st') -> removeMessage id st' = st').
Proof.
  cbv zeta.
  assert (Hboth : without now
                    ((messages st ++ [{| msg_id := now; msg_message := m1; msg_type := t1 |}])
                     ++ [{| msg_id := now; msg_message := m2; msg_type := t2 |}])
                  = without now (messages st)).
  { rewrite !without_app. cbn [without List.filter msg_id].
    rewrite Z.eqb_refl. simpl. by rewrite !app_nil_r. }
  split; [|split; [|split; [|split; [|split; [|split; [|split; [|split]]]]]]].
  - simpl. by rewrite <- app_assoc.
  - reflexivity.
  - simpl. by rewrite <- app_assoc.
  - exact Hboth.
  - exact Hboth.
  - intros t m Hdue Hm. unfold advance in Hm.
    apply expire_batch in Hm as [_ Hall]. apply (Hall (now + 5000, now)).
    apply list_elem_of_In, filter_In. split.
    + apply list_elem_of_In. cbn [addMessage timers].
      apply elem_of_app. right. by left.
    + simpl. apply Z.leb_le. lia.
  - intros id st' m. apply elem_of_without.
  - intros id st' m. apply elem_of_without.
  - intros id [msgs pending] Hid. unfold removeMessage. simpl in *. f_equal.
    by apply without_absent.
Qed.

End MessagesFacts.

(** Two notices in the same millisecond, dismissed together; and a
    dismissal of an unknown identifier. *)
Lemma same_millisecond_messages_witness :
  let st2 := addMessage 1700000000000 "Login successful!" "success"
               (addMessage 1700000000000 "Slot booked successfully!" "success"
                  no_messages) in
  messages (removeMessage 1700000000000 st2) = []
  /\ messages (advance 1700000005000 st2) = []
  /\ removeMessage 42 st2 = st2.
Proof.
  intros st2.
  destruct (same_millisecond_messages 1700000000000 "Slot booked successfully!"
              "success" "Login successful!" "success" no_messages)
    as (_ & _ & _ & Hremove & _ & Hadvance & _ & _ & Hkeep).
  split; [exact Hremove|split].
  - destruct (messages (advance 1700000005000 st2)) as [|m rest] eqn:Hleft; [reflexivity|].
    exfalso. refine (Hadvance 1700000005000 m _ _ _); [done| |].
    + fold st2. rewrite Hleft. by left.
    + revert Hleft. vm_compute. by intros [= <- _].
  - apply Hkeep. vm_compute. intros Hin.
    repeat (apply elem_of_cons in Hin as [Hin|Hin]; [discriminate|]).
    by apply elem_of_nil in Hin.
Defined.

(** ** Registration form *)

Section RegisterFacts.
Context `{Host}.
Import RegisterForm.

(** A submission that passes both checks does reach the network: exactly
    one request goes out, to [/register]. *)
Lemma handleSubmit_valid_fetches (now later : Z) (reply : FetchReply) (w : World)
    (st : State) :
  form_password (formData st) = form_confirmPassword (formData st) ->
  (5 <= passwordStrength st)%nat ->
  fetched (fst (handleSubmit now later reply w st))
  = fetched w ++ [issued "/register" (register_options (formData st)) w].
Proof.
  intros Hsame Hstrong. unfold handleSubmit.
  rewrite Hsame, String.eqb_refl. simpl.
  destruct (Nat.ltb_spec (passwordStrength st) 5) as [Hweak|_]; [lia|].
  pose proof (apiRequest_fetched "/register" (register_options (formData st)) reply w)
    as Hfetched.
  destruct (apiRequest "/register" (register_options (formData st)) reply w)
    as [w' outcome]. exact Hfetched.
Qed.

(** C8. When the password and its confirmation differ, [handleSubmit]
    leaves the world as it is, so no request is issued whatever the
    network would have answered, and appends the error notice
    [Passwords do not match] to the messages of the form; nothing else of
    the form changes. *)
Theorem mismatch_blocks_submission (now later : Z) (reply : FetchReply) (w : World)
    (st : State) :
  form_password (formData st) ≠ form_confirmPassword (formData st) ->
  fst (handleSubmit now later reply w st) = w
  /\ fetched (fst (handleSubmit now later reply w st)) = fetched w
  /\ messages (form_messages (snd (handleSubmit now later reply w st)))
     = messages (form_messages st)
       ++ [{| msg_id := now; msg_message := "Passwords do not match";
              msg_type := "error" |}]
  /\ formData (snd (handleSubmit now later reply w st)) = formData st
  /\ form_loading (snd (handleSubmit now later reply w st)) = form_loading st.
Proof.
  intros Hdiffer. unfold handleSubmit.
  rewrite (proj2 (String.eqb_neq _ _) Hdiffer). simpl. done.
Qed.

End RegisterFacts.

Section RegisterExamples.
#[local] Existing Instance Fixture.host.
Import RegisterForm.

(** A mistyped confirmation on a page that has fetched nothing. *)
Lemma mismatch_blocks_submission_witness :
  let st := syncStrength Fixture.mistyped_form in
  let run := handleSubmit Fixture.now (Fixture.now + 120) (Rejects Fixture.failed_to_fetch)
               (startup ∅) st in
  fetched (fst run) = []
  /\ messages (form_messages (snd run))
     = [{| msg_id := Fixture.now; msg_message := "Passwords do not match";
           msg_type := "error" |}].
Proof.
  intros st run.
  destruct (mismatch_blocks_submission Fixture.now (Fixture.now + 120)
              (Rejects Fixture.failed_to_fetch) (startup ∅) st)
    as (_ & Hfetched & Hmessages & _); [vm_compute; discriminate|].
  split; [exact Hfetched|exact Hmessages].
Defined.

(** The same form with the confirmation typed right is sent. *)
Example matching_passwords_are_sent :
  let st := syncStrength Fixture.filled_form in
  let run := handleSubmit Fixture.now (Fixture.now + 120)
               (Responds Fixture.created) (startup ∅) st in
  passwordStrength st = 5%nat
  /\ map req_url (fetched (fst run)) = ["http://localhost:5000/api/register"]
  /\ map msg_message (messages (form_messages (snd run)))
     = ["Registration successful! Please log in."].
Proof. vm_compute. repeat split; reflexivity. Qed.

End RegisterExamples.

(** * Further properties of the code *)

(** ** Login, rehydration and the shell *)

Section LoginFacts.
Context `{Host}.

Lemma lookup_prop_cons (k k1 : string) (x1 : JSValue) (props : list (string * JSValue)) :
  lookup_prop k ((k1, x1) :: props)
  = if String.eqb k1 k then x1 else lookup_prop k props.
Proof. unfold lookup_prop. simpl. by destruct (String.eqb k1 k). Qed.

Lemma lookup_set_prop (k k' : string) (v : JSValue) (props : list (string * JSValue)) :
  lookup_prop k (set_prop k' v props)
  = if String.eqb k' k then v else lookup_prop k props.
Proof.
  induction props as [|[k1 x1] props IH]; cbn [set_prop].
  - rewrite lookup_prop_cons. by destruct (String.eqb k' k).
  - destruct (String.eqb_spec k1 k') as [->|Hne1]; rewrite !lookup_prop_cons.
    + by destruct (String.eqb k' k).
    + rewrite IH. destruct (String.eqb_spec k1 k) as [->|Hne]; [|done].
      by rewrite (proj2 (String.eqb_neq k' k)).
Qed.

Lemma lookup_prop_absent (k : string) (props : list (string * JSValue)) :
  k ∉ map fst props -> lookup_prop k props = JUndefined.
Proof.
  induction props as [|[k1 x1] props IH]; intros Hk; [reflexivity|].
  cbn [map fst] in Hk. apply not_elem_of_cons in Hk as [Hne Hk].
  rewrite lookup_prop_cons, (proj2 (String.eqb_neq k1 k)) by congruence. by apply IH.
Qed.

(** Copying the properties of an object without repeated keys over a base
    gives, key by key, the object's value where it has the key and the
    base's value elsewhere. *)
Lemma lookup_spread_into (k : string) (props base : list (string * JSValue)) :
  NoDup (map fst props) ->
  lookup_prop k (fold_left (fun acc p => set_prop p.1 p.2 acc) props base)
  = if decide (k ∈ map fst props) then lookup_prop k props else lookup_prop k base.
Proof.
  revert base. induction props as [|[k1 x1] props IH]; intros base Hnd.
  - simpl. destruct (decide (k ∈ [])) as [Hin|Hin]; [by apply elem_of_nil in Hin|done].
  - cbn [fold_left map fst] in *. apply NoDup_cons in Hnd as [Hfresh Hnd].
    rewrite IH by done. cbn [fst snd]. rewrite lookup_prop_cons, lookup_set_prop.
    destruct (String.eqb_spec k1 k) as [->|Hne].
    + rewrite decide_False by done. by rewrite decide_True by (by left).
    + destruct (decide (k ∈ map fst props)) as [Hin|Hin].
      * by rewrite decide_True by (by right).
      * rewrite decide_False; [done|]. intros Hc.
        apply elem_of_cons in Hc as [?|?]; congruence.
Qed.

Lemma login_run (token userData role : JSValue) (w : World) :
  login token userData role w
  = (set_user (with_role userData role)
       (set_localStorage (insert "user" (JSON_stringify (with_role userData role)))
          (set_localStorage (insert "token" (ToString token)) w)),
     Normal tt).
Proof. reflexivity. Qed.

(** X1. [login] with a string token completes; it stores the token and
    the serialised profile, makes the session the profile merged with the
    role, which is truthy, leaves every other key of the storage and what
    was fetched or reloaded alone; the session's [role] reads back the
    role passed, whatever [role] the profile carried, and the other
    fields of a profile object read back what the profile held. *)
Theorem login_persists_session (t : string) (userData role : JSValue) (w : World) :
  let w' := fst (login (JString t) userData role w) in
  snd (login (JString t) userData role w) = Normal tt
  /\ localStorage w' !! "token" = Some t
  /\ user w' = with_role userData role
  /\ localStorage w' !! "user" = Some (JSON_stringify (user w'))
  /\ (forall k, k ≠ "token" -> k ≠ "user" -> localStorage w' !! k = localStorage w !! k)
  /\ truthy (user w') = true
  /\ get_prop (user w') "role" = Normal role
  /\ (forall props k, userData = JObject props -> NoDup (map fst props) -> k ≠ "role" ->
        get_prop (user w') k = get_prop userData k)
  /\ loading w' = loading w /\ reloads w' = reloads w /\ fetched w' = fetched w.
Proof.
  cbv zeta. rewrite login_run. simpl.
  split; [done|]. split.
  { rewrite lookup_insert_ne by done. apply lookup_insert_eq. }
  split; [done|].
  split; [apply lookup_insert_eq|]. split.
  { intros k Ht Hu. by rewrite !lookup_insert_ne. }
  split; [done|]. split.
  { unfold with_role. simpl. by rewrite lookup_set_prop, String.eqb_refl. }
  split; [|done].
  intros props k -> Hnd Hk. unfold with_role, spread. simpl. f_equal.
  rewrite lookup_set_prop, (proj2 (String.eqb_neq "role" k)) by done.
  rewrite lookup_spread_into by done.
  destruct (decide (k ∈ map fst props)) as [Hin|Hin]; [done|].
  by rewrite (lookup_prop_absent k props Hin).
Qed.

(** X2. A reload after [login] brings the same session back: when the
    token is a non-empty string whose payload decodes to an expiry later
    than the current time, and the engine parses what it serialised, the
    startup effect over the storage [login] left sets the session to the
    merged profile again and keeps the storage. *)
Theorem login_survives_reload (t : string) (userData role payload : JSValue)
    (e now : Z) (w : World) :
  t ≠ "" ->
  decodePayload t = Normal payload ->
  get_prop payload "exp" = Normal (JNumber (Num e)) ->
  now < e * 1000 ->
  JSON_stringify (with_role userData role) ≠ "" ->
  JSON_parse (JSON_stringify (with_role userData role)) = Normal (with_role userData role) ->
  let stored := localStorage (fst (login (JString t) userData role w)) in
  initialize now (startup stored)
  = ({| localStorage := stored; user := with_role userData role; loading := false;
        reloads := 0; fetched := [] |}, Normal tt).
Proof.
  intros Hne Hd He Hlt Hs Hp. cbv zeta. rewrite login_run. simpl.
  rewrite (initialize_fresh now _ t (JSON_stringify (with_role userData role))
             payload (JNumber (Num e))); try done.
  - by rewrite Hp.
  - simpl. by rewrite lookup_insert_ne, lookup_insert_eq.
  - simpl. apply lookup_insert_eq.
  - simpl. by apply Z.ltb_lt.
Qed.

(** X3. The session is active after the startup effect only if the storage
    held a non-empty token and a non-empty user entry, the token payload
    decoded, its [exp] times 1000 was later than the current time and the
    user entry parsed; the session is then the parsed entry and the storage
    is untouched. An expired or undecodable token never yields a
    dashboard. *)
Theorem active_session_requires_valid_token (storage : gmap string string) (now : Z) :
  truthy (user (fst (initialize now (startup storage)))) = true ->
  exists t u payload exp parsed,
    storage !! "token" = Some t /\ t ≠ ""
    /\ storage !! "user" = Some u /\ u ≠ ""
    /\ decodePayload t = Normal payload
    /\ get_prop payload "exp" = Normal exp
    /\ gt (mul (ToNumber exp) (Num 1000)) (Num now) = true
    /\ JSON_parse u = Normal parsed
    /\ initialize now (startup storage)
       = ({| localStorage := storage; user := parsed; loading := false;
             reloads := 0; fetched := [] |}, Normal tt).
Proof.
  intros Hactive.
  destruct (truthy_item (storage !! "token") && truthy_item (storage !! "user"))
    eqn:Hboth.
  - apply andb_true_iff in Hboth as [Htok Husr].
    destruct (storage !! "token") as [t|] eqn:Ht; [|discriminate].
    destruct (storage !! "user") as [u|] eqn:Hu; [|discriminate].
    assert (Hne : t ≠ "") by (intros ->; discriminate).
    assert (Hnu : u ≠ "") by (intros ->; discriminate).
    rewrite (initialize_checks now (startup storage) t u Ht Hne Hu Hnu) in Hactive |- *.
    destruct (decodePayload t) as [payload|err] eqn:Hd.
    + destruct (get_prop payload "exp") as [exp|err] eqn:He.
      * destruct (gt (mul (ToNumber exp) (Num 1000)) (Num now)) eqn:Hgt.
        -- rewrite (verifyToken_fresh t u now _ payload exp Hd He Hgt) in Hactive |- *.
           destruct (JSON_parse u) as [parsed|err] eqn:Hp; [|discriminate].
           by exists t, u, payload, exp, parsed.
        -- rewrite (verifyToken_stale t u now _ payload exp Hd He Hgt) in Hactive.
           discriminate.
      * unfold verifyToken in Hactive. run. rewrite Hd, He in Hactive. discriminate.
    + rewrite (verifyToken_undecodable t u now _ err Hd) in Hactive. discriminate.
  - rewrite (initialize_skips now (startup storage)) in Hactive by done. discriminate.
Qed.

(** What the shell gives on a truthy user, on which both reads succeed. *)
Lemma App_signed_in (w : World) :
  loading w = false -> truthy (user w) = true ->
  exists name role,
    get_prop (user w) "name" = Normal name
    /\ get_prop (user w) "role" = Normal role
    /\ App w = Normal (if renderable name
                       then Mounts (if is_string "admin" role
                                    then AdminDashboard else PatientDashboard)
                       else Refuses name).
Proof.
  intros Hloaded Htruthy. unfold App, Dashboard. rewrite Hloaded, Htruthy. run.
  destruct (user w) as [| |b|n|s|l|props]; try discriminate; simpl; eauto.
Qed.

(** X4. Once loading has ended, after [login] with a string token and a
    profile whose [name] React can render, the shell mounts the dashboard that the role
    passed to [login] selects (the administrator's exactly for the string
    [admin]), whatever [role] the profile carried; it mounts the
    authentication page after [logout]. In every state the component
    itself returns without throwing, and React refuses what it returns
    exactly when loading has ended, the user is truthy and its [name] is,
    or holds, an object. *)
Theorem role_decides_dashboard (w : World) :
  loading w = false ->
  (forall t userData role name,
     get_prop (with_role userData role) "name" = Normal name ->
     renderable name = true ->
     App (fst (login (JString t) userData role w))
     = Normal (Mounts (if is_string "admin" role
                       then AdminDashboard else PatientDashboard)))
  /\ App (fst (logout w)) = Normal (Mounts AuthPage)
  /\ (forall w',
        (exists rendering, App w' = Normal rendering)
        /\ (forall child,
              App w' = Normal (Refuses child)
              <-> loading w' = false /\ truthy (user w') = true
                  /\ get_prop (user w') "name" = Normal child
                  /\ renderable child = false)).
Proof.
  intros Hloaded. split; [|split].
  - intros t userData role name Hname Hvalid.
    rewrite login_run. unfold App. simpl. rewrite Hloaded.
    unfold Dashboard. run. rewrite Hname, Hvalid.
    unfold with_role. simpl. by rewrite lookup_set_prop, String.eqb_refl.
  - rewrite logout_run. unfold App. simpl. by rewrite Hloaded.
  - intros w'. destruct (loading w') eqn:Hw'.
    { unfold App. rewrite Hw'. split; [by eexists|].
      intros child. split; [discriminate|]. by intros (? & _). }
    destruct (truthy (user w')) eqn:Htruthy.
    2:{ unfold App. rewrite Hw', Htruthy. split; [by eexists|].
        intros child. split; [discriminate|]. by intros (_ & ? & _). }
    destruct (App_signed_in w' Hw' Htruthy) as (name & role & Hname & _ & ->).
    split; [by eexists|]. intros child. rewrite Hname. split.
    + destruct (renderable name) eqn:Hvalid; [discriminate|].
      intros [= <-]. done.
    + intros (_ & _ & [= ->] & ->). done.
Qed.

End LoginFacts.
Section RunFacts.
Context `{Host}.
Import Runs.

(** The startup effect leaves the storage as it is or without the two
    keys. *)
Lemma initialize_storage (now : Z) (w : World) :
  localStorage (fst (initialize now w)) = localStorage w
  \/ localStorage (fst (initialize now w))
     = delete "user" (delete "token" (localStorage w)).
Proof.
  destruct (truthy_item (localStorage w !! "token")
            && truthy_item (localStorage w !! "user")) eqn:Hboth.
  - apply andb_true_iff in Hboth as [Htok Husr].
    destruct (localStorage w !! "token") as [t|] eqn:Ht; [|discriminate].
    destruct (localStorage w !! "user") as [u|] eqn:Hu; [|discriminate].
    assert (Hne : t ≠ "") by (intros ->; discriminate).
    assert (Hnu : u ≠ "") by (intros ->; discriminate).
    rewrite (initialize_checks now w t u Ht Hne Hu Hnu).
    unfold verifyToken. run.
    destruct (decodePayload t) as [payload|err]; [|by right].
    destruct (get_prop payload "exp") as [exp|err]; [|by right].
    destruct (gt _ _); [|by right].
    destruct (JSON_parse u); [by left|by right].
  - rewrite (initialize_skips now w Hboth). by left.
Qed.

(** A call leaves the storage as it is or without the two keys. *)
Lemma apiRequest_storage_cases (endpoint : string) (options : Options)
    (reply : FetchReply) (w : World) :
  localStorage (fst (apiRequest endpoint options reply w)) = localStorage w
  \/ localStorage (fst (apiRequest endpoint options reply w))
     = delete "user" (delete "token" (localStorage w)).
Proof.
  rewrite apiRequest_run. cbv zeta.
  assert (Hon : forall e w', fst (on_error e w') = w').
  { intros e w'. unfold on_error, throw. by destruct (_ && _). }
  destruct reply as [e|r]; [rewrite Hon; by left|].
  destruct (json r) as [data|e]; [|rewrite Hon; by left].
  destruct (ok r); [by left|].
  destruct (_ || _); [by right|].
  destruct (get_prop data "error") as [error|e]; [|rewrite Hon; by left].
  destruct (get_prop_opt error "message") as [msg|e]; [by left|rewrite Hon; by left].
Qed.

(** Each operation either keeps the storage, removes the two keys, or
    writes the two keys. *)
Lemma perform_storage (op : Operation) (w : World) :
  localStorage (perform op w) = localStorage w
  \/ localStorage (perform op w) = delete "user" (delete "token" (localStorage w))
  \/ exists t u, localStorage (perform op w)
                 = <["user" := u]> (<["token" := t]> (localStorage w)).
Proof.
  destruct op as [now|token userData role| |endpoint options reply]; cbn [perform].
  - destruct (initialize_storage now w); auto.
  - right; right. rewrite login_run. simpl. eauto.
  - right; left. by rewrite logout_run.
  - destruct (apiRequest_storage_cases endpoint options reply w); auto.
Qed.

(** X5. No run of the startup effect, [login], [logout] and gateway calls
    creates a partial persisted state: if the storage starts with both
    keys or with neither, it has both or neither after every run. *)
Theorem storage_stays_paired (ops : list Operation) (w : World) :
  (localStorage w !! "token" = None <-> localStorage w !! "user" = None) ->
  (localStorage (perform_all ops w) !! "token" = None
   <-> localStorage (perform_all ops w) !! "user" = None).
Proof.
  revert w. induction ops as [|op ops IH]; intros w Hpaired; [exact Hpaired|].
  cbn [perform_all fold_left]. apply IH.
  destruct (perform_storage op w) as [->|[->|(t & u & ->)]].
  - exact Hpaired.
  - rewrite lookup_delete_ne, !lookup_delete_eq by done. done.
  - rewrite lookup_insert_ne, !lookup_insert_eq by done. done.
Qed.

(** X6. The session store and the gateway own the keys [token] and [user]
    only: every other key of the storage is the same after any run. *)
Theorem other_keys_untouched (ops : list Operation) (w : World) (k : string) :
  k ≠ "token" -> k ≠ "user" ->
  localStorage (perform_all ops w) !! k = localStorage w !! k.
Proof.
  intros Ht Hu. revert w. induction ops as [|op ops IH]; intros w; [reflexivity|].
  cbn [perform_all fold_left]. fold (perform_all ops (perform op w)). rewrite IH.
  destruct (perform_storage op w) as [->|[->|(t & u & ->)]].
  - reflexivity.
  - by rewrite !lookup_delete_ne.
  - by rewrite !lookup_insert_ne.
Qed.

(** A segment without a dot in front of a dot is the first segment. *)
Lemma split_first_segment (h rest : string) :
  (forall c, In c (String.list_ascii_of_string h) -> c ≠ "."%char) ->
  split "." (h +:+ "." +:+ rest) = h :: split "." rest.
Proof.
  induction h as [|c h IH]; intros Hdot; [reflexivity|].
  change (String c h +:+ "." +:+ rest) with (String c (h +:+ "." +:+ rest)).
  cbn [split].
  destruct (Ascii.eqb_spec c ".") as [->|_].
  - exfalso. apply (Hdot "."%char); [by left|reflexivity].
  - rewrite IH; [reflexivity|]. intros c' Hin. apply Hdot. by right.
Qed.

(** X7. Only the second segment of the token is read: two tokens with the
    same payload segment and any headers and signatures, or no signature
    at all, decode alike and pass or fail the expiry check alike. The
    signature is never verified. *)
Theorem signature_is_not_checked (h h' p s s' u : string) (now : Z) (w : World) :
  (forall c, In c (String.list_ascii_of_string h) -> c ≠ "."%char) ->
  (forall c, In c (String.list_ascii_of_string h') -> c ≠ "."%char) ->
  (forall c, In c (String.list_ascii_of_string p) -> c ≠ "."%char) ->
  decodePayload (h +:+ "." +:+ p +:+ "." +:+ s)
  = decodePayload (h' +:+ "." +:+ p +:+ "." +:+ s')
  /\ decodePayload (h +:+ "." +:+ p +:+ "." +:+ s) = decodePayload (h' +:+ "." +:+ p)
  /\ verifyToken (h +:+ "." +:+ p +:+ "." +:+ s) u now w
     = verifyToken (h' +:+ "." +:+ p +:+ "." +:+ s') u now w.
Proof.
  intros Hh Hh' Hp.
  assert (Hsigned : forall x y,
             (forall c, In c (String.list_ascii_of_string x) -> c ≠ "."%char) ->
             decodePayload (x +:+ "." +:+ p +:+ "." +:+ y)
             = (encoded ← atob p; JSON_parse encoded)).
  { intros x y Hx. unfold decodePayload.
    by rewrite (split_first_segment x _ Hx), (split_first_segment p _ Hp). }
  assert (Hbare : decodePayload (h' +:+ "." +:+ p) = (encoded ← atob p; JSON_parse encoded)).
  { unfold decodePayload.
    by rewrite (split_first_segment h' _ Hh'), (split_no_separator p Hp). }
  split; [|split].
  - by rewrite !Hsigned.
  - by rewrite Hsigned, Hbare.
  - unfold verifyToken. by rewrite !Hsigned.
Qed.

End RunFacts.

Section LoginExamples.
#[local] Existing Instance Fixture.host.
Import Runs.

(** A profile that already carries a role, signed in as a patient. *)
Lemma login_persists_session_witness :
  let userData := JObject [("name", JString "Pat"); ("role", JString "guest")] in
  let w' := fst (login (JString Fixture.valid_token) userData (JString "patient")
                   (startup ∅)) in
  localStorage w' !! "token" = Some Fixture.valid_token
  /\ get_prop (user w') "role" = Normal (JString "patient")
  /\ get_prop (user w') "name" = Normal (JString "Pat").
Proof.
  intros userData w'.
  destruct (login_persists_session Fixture.valid_token userData
              (JString "patient") (startup ∅))
    as (_ & Htoken & _ & _ & _ & _ & Hrole & Hfields & _).
  split; [exact Htoken|split; [exact Hrole|]].
  apply (Hfields [("name", JString "Pat"); ("role", JString "guest")] "name");
    [reflexivity| |done].
  apply NoDup_cons. split; [|apply NoDup_singleton].
  intros Hin. apply list_elem_of_singleton in Hin. discriminate.
Defined.

(** Signing in and loading the page again, on the sample data. *)
Lemma login_survives_reload_witness :
  let stored := localStorage (fst (login (JString Fixture.valid_token)
                                     (JObject [("name", JString "Pat")])
                                     (JString "patient") (startup ∅))) in
  initialize Fixture.now (startup stored)
  = ({| localStorage := stored; user := Fixture.profile; loading := false;
        reloads := 0; fetched := [] |}, Normal tt).
Proof.
  exact (login_survives_reload Fixture.valid_token (JObject [("name", JString "Pat")])
           (JString "patient") (Fixture.exp_payload 9999999999) 9999999999
           Fixture.now (startup ∅)
           ltac:(done) eq_refl eq_refl eq_refl ltac:(vm_compute; discriminate) eq_refl).
Defined.

(** The sample session is active after startup, so its token was valid. *)
Lemma active_session_requires_valid_token_witness :
  exists t u payload exp parsed,
    Fixture.session Fixture.valid_token Fixture.profile_text !! "token" = Some t
    /\ t ≠ ""
    /\ Fixture.session Fixture.valid_token Fixture.profile_text !! "user" = Some u
    /\ u ≠ ""
    /\ decodePayload t = Normal payload
    /\ get_prop payload "exp" = Normal exp
    /\ gt (mul (ToNumber exp) (Num 1000)) (Num Fixture.now) = true
    /\ JSON_parse u = Normal parsed
    /\ initialize Fixture.now
         (startup (Fixture.session Fixture.valid_token Fixture.profile_text))
       = ({| localStorage := Fixture.session Fixture.valid_token Fixture.profile_text;
             user := parsed; loading := false; reloads := 0; fetched := [] |},
          Normal tt).
Proof.
  exact (active_session_requires_valid_token
           (Fixture.session Fixture.valid_token Fixture.profile_text) Fixture.now eq_refl).
Defined.

(** An administrator and a patient signing in on a loaded page, and the
    page after signing out. *)
Lemma role_decides_dashboard_witness :
  let w := set_loading false Fixture.signed_in in
  App (fst (login (JString Fixture.valid_token) Fixture.profile (JString "admin") w))
  = Normal (Mounts AdminDashboard)
  /\ App (fst (login (JString Fixture.valid_token) Fixture.profile (JString "patient") w))
     = Normal (Mounts PatientDashboard)
  /\ App (fst (logout w)) = Normal (Mounts AuthPage).
Proof.
  intros w.
  destruct (role_decides_dashboard w eq_refl) as (Hlogin & Hlogout & _).
  split; [exact (Hlogin Fixture.valid_token Fixture.profile (JString "admin")
                   (JString "Pat") eq_refl eq_refl)|].
  split; [exact (Hlogin Fixture.valid_token Fixture.profile (JString "patient")
                   (JString "Pat") eq_refl eq_refl)|
          exact Hlogout].
Defined.

(** A storage with both keys stays paired through a run. *)
Lemma storage_stays_paired_witness :
  let w := perform_all
             [Initialize Fixture.now;
              Request "/my-bookings" no_options (Responds Fixture.forbidden);
              Login (JString Fixture.valid_token) Fixture.profile (JString "patient");
              Logout]
             Fixture.signed_in in
  localStorage w !! "token" = None <-> localStorage w !! "user" = None.
Proof.
  apply storage_stays_paired. vm_compute. split; discriminate.
Defined.

(** A theme preference survives signing in and out. *)
Lemma other_keys_untouched_witness :
  localStorage
    (perform_all
       [Login (JString Fixture.valid_token) Fixture.profile (JString "patient");
        Request "/my-bookings" no_options (Responds Fixture.forbidden);
        Logout]
       (startup (<["theme" := "dark"]> ∅)))
    !! "theme" = Some "dark".
Proof.
  rewrite other_keys_untouched; [reflexivity|done|done].
Defined.

(** The sample token with another header and a forged signature. *)
Lemma signature_is_not_checked_witness :
  decodePayload ("eyJhbGciOiJIUzI1NiJ9" +:+ "." +:+ "eyJleHAiOjk5OTk5OTk5OTl9"
                 +:+ "." +:+ "c2ln")
  = decodePayload ("e30" +:+ "." +:+ "eyJleHAiOjk5OTk5OTk5OTl9" +:+ "." +:+ "forged").
Proof.
  refine (proj1 (signature_is_not_checked "eyJhbGciOiJIUzI1NiJ9" "e30"
                   "eyJleHAiOjk5OTk5OTk5OTl9" "c2ln" "forged" "" 0 (startup ∅) _ _ _));
    intros c Hin; vm_compute in Hin;
    repeat (destruct Hin as [<-|Hin]; [discriminate|]); destruct Hin.
Defined.

End LoginExamples.

(** ** More on the gateway *)

Section GatewayMore.
Context `{Host}.

Lemma on_error_world (e : JSError) (w : World) : fst (on_error e w) = w.
Proof. unfold on_error, throw. by destruct (_ && _). Qed.

Lemma auth_failure_status (s : Z) :
  (s =? 401) || (s =? 403) = true <-> s = 401 \/ s = 403.
Proof. rewrite orb_true_iff, !Z.eqb_eq. reflexivity. Qed.

Lemma auth_failure_not_ok (r : Response) :
  status r = 401 \/ status r = 403 -> ok r = false.
Proof. intros [Hs|Hs]; unfold ok; by rewrite Hs. Qed.

(** X8. The gateway signs the page out exactly on a reply that is a
    response with status 401 or 403 whose body parses: then, and only
    then, the reload count goes up by one, and then both keys are removed
    from the storage, every other key is kept, and the call returns
    [undefined]; on every other reply (rejected fetch, other status,
    unparseable body) storage and reload count are untouched. *)
Theorem forced_logout_iff (endpoint : string) (options : Options) (reply : FetchReply)
    (w : World) :
  let w' := fst (apiRequest endpoint options reply w) in
  let forced := exists r data, reply = Responds r /\ json r = Normal data
                               /\ (status r = 401 \/ status r = 403) in
  (reloads w' = S (reloads w) <-> forced)
  /\ (forced ->
      apiRequest endpoint options reply w
      = (add_reload (signed_out (add_fetched (issued endpoint options w) w)),
         Normal JUndefined)
      /\ localStorage w' = delete "user" (delete "token" (localStorage w))
      /\ localStorage w' !! "token" = None
      /\ localStorage w' !! "user" = None)
  /\ (~ forced -> reloads w' = reloads w /\ localStorage w' = localStorage w).
Proof.
  cbv zeta. rewrite apiRequest_run. cbv zeta.
  assert (Hkept : forall outcome : World * Completion JSValue,
            fst outcome = add_fetched (issued endpoint options w) w ->
            ~ (exists r data, reply = Responds r /\ json r = Normal data
                              /\ (status r = 401 \/ status r = 403)) ->
            (reloads (fst outcome) = S (reloads w) <->
             exists r data, reply = Responds r /\ json r = Normal data
                            /\ (status r = 401 \/ status r = 403))
            /\ ((exists r data, reply = Responds r /\ json r = Normal data
                                /\ (status r = 401 \/ status r = 403)) ->
                outcome
                = (add_reload (signed_out (add_fetched (issued endpoint options w) w)),
                   Normal JUndefined)
                /\ localStorage (fst outcome)
                   = delete "user" (delete "token" (localStorage w))
                /\ localStorage (fst outcome) !! "token" = None
                /\ localStorage (fst outcome) !! "user" = None)
            /\ (~ (exists r data, reply = Responds r /\ json r = Normal data
                                  /\ (status r = 401 \/ status r = 403)) ->
                reloads (fst outcome) = reloads w
                /\ localStorage (fst outcome) = localStorage w)).
  { intros outcome -> Hnot. simpl. split; [split; [lia|done]|]. split; done. }
  destruct reply as [e|r].
  { apply Hkept; [apply on_error_world|]. intros (r & data & Hr & _). discriminate. }
  destruct (json r) as [data|e] eqn:Hjson.
  2:{ apply Hkept; [apply on_error_world|].
      intros (r' & data & [= <-] & Hj & _). congruence. }
  destruct (ok r) eqn:Hok.
  { apply Hkept; [done|]. intros (r' & data' & [= <-] & _ & Hs).
    rewrite (auth_failure_not_ok r Hs) in Hok. discriminate. }
  destruct ((status r =? 401) || (status r =? 403)) eqn:Hauth.
  { assert (Hforced : exists r' data', Responds r = Responds r' /\ json r' = Normal data'
                                       /\ (status r' = 401 \/ status r' = 403)).
    { exists r, data. by apply auth_failure_status in Hauth. }
    simpl. split; [done|]. split; [|done]. intros _.
    split; [done|]. split; [done|].
    split; [rewrite lookup_delete_ne by done; apply lookup_delete_eq|
            apply lookup_delete_eq]. }
  assert (Hno : ~ (exists r' data', Responds r = Responds r' /\ json r' = Normal data'
                                    /\ (status r' = 401 \/ status r' = 403))).
  { intros (r' & data' & [= <-] & _ & Hs). apply auth_failure_status in Hs. congruence. }
  destruct (get_prop data "error") as [error|e]; [|apply Hkept; [apply on_error_world|done]].
  destruct (get_prop_opt error "message") as [msg|e];
    [apply Hkept; done|apply Hkept; [apply on_error_world|done]].
Qed.

(** X9. On a 2xx response the caller gets what [response.json()] gives:
    the parsed body as it is, with nothing cleared and no reload; or, when
    the body does not parse (as for an empty 204 body), the parse error,
    although the request succeeded. *)
Theorem success_returns_body (endpoint : string) (options : Options) (r : Response)
    (w : World) :
  ok r = true ->
  (forall data, json r = Normal data ->
     apiRequest endpoint options (Responds r) w
     = (add_fetched (issued endpoint options w) w, Normal data))
  /\ (forall e, json r = Throw e -> name e ≠ "TypeError" ->
        apiRequest endpoint options (Responds r) w
        = (add_fetched (issued endpoint options w) w, Throw e)).
Proof.
  intros Hok. split.
  - intros data Hjson. rewrite apiRequest_run. cbv zeta. by rewrite Hjson, Hok.
  - intros e Hjson Hname. rewrite apiRequest_run. cbv zeta. rewrite Hjson.
    unfold on_error. by rewrite (proj2 (String.eqb_neq _ _) Hname).
Qed.

(** X10. After [logout], and after a sign-out forced by a 401 or 403, a
    call that passes no headers of its own goes out with the content type
    alone: no [Authorization] header is sent any more. *)
Theorem no_credentials_after_logout (endpoint : string) (options : Options) (w : World) :
  opt_headers options = None ->
  req_headers (issued endpoint options (fst (logout w)))
  = [("Content-Type", "application/json")]
  /\ (forall endpoint' options' r data,
        status r = 401 \/ status r = 403 -> json r = Normal data ->
        req_headers
          (issued endpoint options (fst (apiRequest endpoint' options' (Responds r) w)))
        = [("Content-Type", "application/json")]).
Proof.
  intros Hopt. split.
  - rewrite logout_run. unfold issued, make_request, default_headers. simpl.
    rewrite Hopt. rewrite lookup_delete_ne by done. by rewrite lookup_delete_eq.
  - intros endpoint' options' r data Hs Hjson.
    rewrite apiRequest_run. cbv zeta.
    rewrite Hjson, (auth_failure_not_ok r Hs), (proj2 (auth_failure_status _) Hs).
    unfold issued, make_request, default_headers. simpl.
    rewrite Hopt. rewrite lookup_delete_ne by done. by rewrite lookup_delete_eq.
Qed.

(** X11. A non-2xx response other than 401 and 403 whose JSON body is
    [null] does not get the [HTTP <status>: <statusText>] message: reading
    [data.error] throws a [TypeError], and that error reaches the caller. *)
Theorem null_body_type_error (endpoint : string) (options : Options) (r : Response)
    (w : World) :
  ok r = false -> status r ≠ 401 -> status r ≠ 403 ->
  json r = Normal JNull ->
  apiRequest endpoint options (Responds r) w
  = (add_fetched (issued endpoint options w) w,
     Throw {| name := "TypeError";
              message := "Cannot read properties of null (reading 'error')" |}).
Proof.
  intros Hok H401 H403 Hjson. rewrite apiRequest_run. cbv zeta.
  by rewrite Hjson, Hok, (not_auth_failure _ H401 H403).
Qed.

(** X12. The gateway never retries and never drops a call: a run of calls
    issues exactly one [fetch] per call, in the order of the calls, each
    to the base URL followed by the endpoint. *)
Theorem one_fetch_per_call (calls : list (string * Options * FetchReply)) (w : World) :
  map req_url (fetched (apiRequests calls w))
  = map req_url (fetched w) ++ map (fun c => API_URL +:+ c.1.1) calls.
Proof.
  revert w. induction calls as [|[[endpoint options] reply] calls IH]; intros w.
  - simpl. by rewrite app_nil_r.
  - rewrite apiRequests_cons, IH, apiRequest_fetched, map_app. simpl.
    by rewrite <- app_assoc.
Qed.

End GatewayMore.

Section GatewayMoreExamples.
#[local] Existing Instance Fixture.host.

(** An empty 204 answer to a cancellation is reported as an error. *)
Lemma success_returns_body_witness :
  snd (apiRequest "/bookings/7"
         {| opt_method := Some "DELETE"; opt_headers := None; opt_body := None |}
         (Responds {| status := 204; statusText := "No Content";
                      json := Throw Fixture.syntax_error |})
         Fixture.signed_in)
  = Throw Fixture.syntax_error
  /\ snd (apiRequest "/my-bookings" no_options (Responds Fixture.created)
            Fixture.signed_in)
     = Normal (JObject [("message", JString "User registered")]).
Proof.
  split.
  - destruct (success_returns_body "/bookings/7"
                {| opt_method := Some "DELETE"; opt_headers := None; opt_body := None |}
                {| status := 204; statusText := "No Content";
                   json := Throw Fixture.syntax_error |}
                Fixture.signed_in eq_refl) as [_ Hthrow].
    rewrite (Hthrow Fixture.syntax_error); [reflexivity|reflexivity|discriminate].
  - destruct (success_returns_body "/my-bookings" no_options Fixture.created
                Fixture.signed_in eq_refl) as [Hbody _].
    rewrite (Hbody _ eq_refl). reflexivity.
Defined.

(** The first request after signing out, and after a 403. *)
Lemma no_credentials_after_logout_witness :
  req_headers (issued "/login" no_options (fst (logout Fixture.signed_in)))
  = [("Content-Type", "application/json")]
  /\ req_headers
       (issued "/login" no_options
          (fst (apiRequest "/all-bookings?page=1&limit=20" no_options
                  (Responds Fixture.forbidden) Fixture.signed_in)))
     = [("Content-Type", "application/json")].
Proof.
  destruct (no_credentials_after_logout "/login" no_options Fixture.signed_in eq_refl)
    as [Hlogout Hforced].
  split; [exact Hlogout|].
  apply (Hforced _ _ Fixture.forbidden (Fixture.error_envelope "Admin access required"));
    [by right|reflexivity].
Defined.

(** A 500 whose body is the JSON text [null]. *)
Lemma null_body_type_error_witness :
  snd (apiRequest "/book" no_options
         (Responds {| status := 500; statusText := "Internal Server Error";
                      json := Normal JNull |})
         Fixture.signed_in)
  = Throw {| name := "TypeError";
             message := "Cannot read properties of null (reading 'error')" |}.
Proof.
  rewrite (null_body_type_error "/book" no_options
             {| status := 500; statusText := "Internal Server Error";
                json := Normal JNull |} Fixture.signed_in); done.
Defined.

End GatewayMoreExamples.

(** ** The login and registration forms *)

Section FormFacts.
Context `{Host}.

Lemma login_form_run (later : Z) (reply : FetchReply) (w : World) (st : LoginForm.State) :
  LoginForm.handleSubmit later reply w st
  = match apiRequest "/login"
            (CallSites.options_of
               (CallSites.Login (LoginForm.form_email (LoginForm.formData st))
                  (LoginForm.form_password (LoginForm.formData st))))
            reply w with
    | (w1, Normal response) =>
        match get_prop response "token", get_prop response "user",
              get_prop response "role" with
        | Normal token, Normal userData, Normal role =>
            (fst (login token userData role w1),
             LoginForm.with_loading false
               (LoginForm.with_messages (addMessage later "Login successful!" "success")
                  (LoginForm.with_loading true st)))
        | Throw err, _, _ | _, Throw err, _ | _, _, Throw err =>
            (w1, LoginForm.with_loading false
                   (LoginForm.with_messages (addError later (message err))
                      (LoginForm.with_loading true st)))
        end
    | (w1, Throw err) =>
        (w1, LoginForm.with_loading false
               (LoginForm.with_messages (addError later (message err))
                  (LoginForm.with_loading true st)))
    end.
Proof.
  unfold LoginForm.handleSubmit, LoginForm.submit. run. simpl.
  destruct (apiRequest _ _ reply w) as [w1 [response|err]]; [|reflexivity].
  destruct response; reflexivity.
Qed.

(** X13. A 2xx reply to [/login] whose body is a JSON object with a
    string [token], or with none, signs the user in with the body's
    [token], [user] and [role], present or not: the token is stored as it
    is (as the text [undefined] when the field is missing), the profile
    merged with the role is stored under [user] and becomes the session,
    which is truthy and carries the body's role; one request went out, to
    [/login], and no reload is asked for. The reply is not validated. *)
Theorem login_form_signs_in (later : Z) (r : Response) (props : list (string * JSValue))
    (t : string) (w : World) (st : LoginForm.State) :
  ok r = true -> json r = Normal (JObject props) ->
  lookup_prop "token" props = JString t
  \/ (lookup_prop "token" props = JUndefined /\ t = "undefined") ->
  let run := LoginForm.handleSubmit later (Responds r) w st in
  localStorage (fst run) !! "token" = Some t
  /\ user (fst run) = with_role (lookup_prop "user" props) (lookup_prop "role" props)
  /\ localStorage (fst run) !! "user" = Some (JSON_stringify (user (fst run)))
  /\ (forall k, k ≠ "token" -> k ≠ "user" ->
        localStorage (fst run) !! k = localStorage w !! k)
  /\ truthy (user (fst run)) = true
  /\ get_prop (user (fst run)) "role" = Normal (lookup_prop "role" props)
  /\ fetched (fst run)
     = fetched w
       ++ [issued "/login"
             (CallSites.options_of
                (CallSites.Login (LoginForm.form_email (LoginForm.formData st))
                   (LoginForm.form_password (LoginForm.formData st)))) w]
  /\ reloads (fst run) = reloads w.
Proof.
  intros Hok Hjson Htoken. cbv zeta. rewrite login_form_run, apiRequest_run. cbv zeta.
  rewrite Hjson, Hok. cbn [get_prop]. rewrite login_run. simpl.
  assert (Htext : ToString (lookup_prop "token" props) = t).
  { by destruct Htoken as [-> | [-> ->]]. }
  rewrite Htext.
  split; [by rewrite lookup_insert_ne, lookup_insert_eq|].
  split; [done|]. split; [apply lookup_insert_eq|].
  split; [intros k Hk Hu; by rewrite !lookup_insert_ne|].
  split; [done|]. split; [|done].
  unfold with_role. simpl. by rewrite lookup_set_prop, String.eqb_refl.
Qed.

(** X14. When the call to [/login] fails, the form never signs in: the
    world is what the gateway left, the session is untouched, and the one
    notice added is the error's message, as an error. *)
Theorem login_form_reports_failure (later : Z) (reply : FetchReply) (err : JSError)
    (w : World) (st : LoginForm.State) :
  let call := apiRequest "/login"
                (CallSites.options_of
                   (CallSites.Login (LoginForm.form_email (LoginForm.formData st))
                      (LoginForm.form_password (LoginForm.formData st))))
                reply w in
  snd call = Throw err ->
  let run := LoginForm.handleSubmit later reply w st in
  fst run = fst call
  /\ user (fst run) = user w
  /\ messages (LoginForm.form_messages (snd run))
     = messages (LoginForm.form_messages st)
       ++ [{| msg_id := later; msg_message := message err; msg_type := "error" |}]
  /\ LoginForm.form_loading (snd run) = false.
Proof.
  cbv zeta. intros Hcall. rewrite login_form_run.
  pose proof (apiRequest_user "/login"
                (CallSites.options_of
                   (CallSites.Login (LoginForm.form_email (LoginForm.formData st))
                      (LoginForm.form_password (LoginForm.formData st))))
                reply w) as Huser.
  destruct (apiRequest _ _ reply w) as [w1 outcome]. simpl in *. subst outcome.
  done.
Qed.

(** X15. A 401 or 403 reply to [/login] with a JSON body does not show
    the server's message: the gateway returns [undefined], reading its
    [token] throws, and the form shows that [TypeError]'s message; the
    session is untouched, both keys are removed and a reload is asked
    for. *)
Theorem login_form_unauthorized (later : Z) (r : Response) (data : JSValue)
    (w : World) (st : LoginForm.State) :
  status r = 401 \/ status r = 403 -> json r = Normal data ->
  let run := LoginForm.handleSubmit later (Responds r) w st in
  messages (LoginForm.form_messages (snd run))
  = messages (LoginForm.form_messages st)
    ++ [{| msg_id := later;
           msg_message := "Cannot read properties of undefined (reading 'token')";
           msg_type := "error" |}]
  /\ user (fst run) = user w
  /\ localStorage (fst run) !! "token" = None
  /\ localStorage (fst run) !! "user" = None
  /\ reloads (fst run) = S (reloads w).
Proof.
  intros Hs Hjson. cbv zeta. rewrite login_form_run, apiRequest_run. cbv zeta.
  rewrite Hjson, (auth_failure_not_ok r Hs), (proj2 (auth_failure_status _) Hs).
  simpl. split; [done|]. split; [done|]. split; [|split; [|done]].
  - rewrite lookup_delete_ne by done. apply lookup_delete_eq.
  - apply lookup_delete_eq.
Qed.

Import RegisterForm.

Lemma validatePassword_bound (password : string) : (validatePassword password <= 5)%nat.
Proof.
  unfold validatePassword.
  repeat match goal with |- context [if ?b then _ else _] => destruct b end; lia.
Qed.

Lemma validatePassword_five (password : string) :
  validatePassword password = 5%nat <->
  (8 <= String.length password)%nat
  /\ test (code_between 97 122) password = true
  /\ test (code_between 65 90) password = true
  /\ test (code_between 48 57) password = true
  /\ test special password = true.
Proof.
  unfold validatePassword.
  destruct (Nat.leb_spec 8 (String.length password));
    destruct (test (code_between 97 122) password);
    destruct (test (code_between 65 90) password);
    destruct (test (code_between 48 57) password);
    destruct (test special password); simpl; split; intros; try lia; try done;
    try (destruct_and?; (lia || done)).
Qed.

Lemma test_exists (class : ascii -> bool) (s : string) :
  test class s = true <->
  exists c, In c (String.list_ascii_of_string s) /\ class c = true.
Proof. unfold test. apply existsb_exists. Qed.

(** X16. For a password of ASCII characters, with the strength cell in
    step with the password field, [handleSubmit] sends the registration
    exactly when the two passwords are equal and the password has at
    least eight characters, a lower-case letter, an upper-case letter, a
    digit and one of [@$!%*?&]: then one request goes out to [/register];
    otherwise the world is unchanged and nothing is sent. *)
Theorem registration_sent_iff (now later : Z) (reply : FetchReply) (w : World)
    (st : State) :
  (forall c, In c (String.list_ascii_of_string (form_password (formData st))) ->
             (N_of_ascii c < 128)%N) ->
  passwordStrength st = validatePassword (form_password (formData st)) ->
  let password := form_password (formData st) in
  let accepted :=
    password = form_confirmPassword (formData st)
    /\ (8 <= String.length password)%nat
    /\ (exists c, In c (String.list_ascii_of_string password)
                  /\ (97 <= N_of_ascii c <= 122)%N)
    /\ (exists c, In c (String.list_ascii_of_string password)
                  /\ (65 <= N_of_ascii c <= 90)%N)
    /\ (exists c, In c (String.list_ascii_of_string password)
                  /\ (48 <= N_of_ascii c <= 57)%N)
    /\ (exists c, In c (String.list_ascii_of_string password)
                  /\ In c (String.list_ascii_of_string "@$!%*?&")) in
  (accepted ->
   fetched (fst (handleSubmit now later reply w st))
   = fetched w ++ [issued "/register" (register_options (formData st)) w])
  /\ (~ accepted -> fst (handleSubmit now later reply w st) = w).
Proof.
  intros _ Hsync. cbv zeta.
  assert (Hclass : forall lo hi c,
             code_between lo hi c = true <-> (lo <= N_of_ascii c <= hi)%N).
  { intros lo hi c. unfold code_between. rewrite andb_true_iff, !N.leb_le. done. }
  assert (Hspecial : forall c,
             special c = true <-> In c (String.list_ascii_of_string "@$!%*?&")).
  { intros c. unfold special. rewrite existsb_exists. split.
    - intros (x & Hin & Heq). apply Ascii.eqb_eq in Heq. by subst.
    - intros Hin. exists c. split; [done|]. apply Ascii.eqb_refl. }
  assert (Hstrong : validatePassword (form_password (formData st)) = 5%nat <->
            (8 <= String.length (form_password (formData st)))%nat
            /\ (exists c, In c (String.list_ascii_of_string (form_password (formData st)))
                          /\ (97 <= N_of_ascii c <= 122)%N)
            /\ (exists c, In c (String.list_ascii_of_string (form_password (formData st)))
                          /\ (65 <= N_of_ascii c <= 90)%N)
            /\ (exists c, In c (String.list_ascii_of_string (form_password (formData st)))
                          /\ (48 <= N_of_ascii c <= 57)%N)
            /\ (exists c, In c (String.list_ascii_of_string (form_password (formData st)))
                          /\ In c (String.list_ascii_of_string "@$!%*?&"))).
  { rewrite validatePassword_five, !test_exists.
    setoid_rewrite Hclass. setoid_rewrite Hspecial. reflexivity. }
  split.
  - intros (Hsame & Hrest). apply handleSubmit_valid_fetches; [done|].
    rewrite Hsync. apply Hstrong in Hrest. lia.
  - intros Hrejected. unfold handleSubmit.
    destruct (String.eqb_spec (form_password (formData st))
                (form_confirmPassword (formData st))) as [Hsame|Hdiffer]; [|reflexivity].
    simpl. destruct (Nat.ltb_spec (passwordStrength st) 5) as [Hweak|Hfull];
      [reflexivity|].
    exfalso. apply Hrejected. split; [done|]. apply Hstrong.
    pose proof (validatePassword_bound (form_password (formData st))). lia.
Qed.

(** X17. The strength meter never needs its fallback and agrees with the
    submit check: for every password the label and the colour are the
    entries of their tables at the same index, and the label is [Strong]
    (the colour the last one) exactly when the strength is 5, the value
    [handleSubmit] asks for. *)
Theorem strength_meter_agrees (password : string) :
  let s := validatePassword password in
  (s <= 5)%nat
  /\ StrengthMeter.levels !! Nat.max 0 (s - 1)
     = Some (StrengthMeter.getPasswordStrengthText s)
  /\ StrengthMeter.colors !! Nat.max 0 (s - 1)
     = Some (StrengthMeter.getPasswordStrengthColor s)
  /\ (StrengthMeter.getPasswordStrengthText s = "Strong" <-> s = 5%nat)
  /\ (StrengthMeter.getPasswordStrengthColor s = "#44cc44" <-> s = 5%nat).
Proof.
  cbv zeta. pose proof (validatePassword_bound password) as Hbound.
  split; [exact Hbound|].
  destruct (validatePassword password) as [|[|[|[|[|[|n]]]]]]; [..|lia];
    (split; [reflexivity|split; [reflexivity|split; split; (done || lia)]]).
Qed.

(** X18. A 401 or 403 reply to [/register] with a JSON body is taken for
    a success: the gateway returns [undefined] without throwing, so the
    form shows the success notice, empties its fields and schedules the
    switch to the login form two seconds later, while the gateway has
    removed both keys, kept the rest of the storage, and asked for a
    reload. *)
Theorem registration_unauthorized_reads_success (now later : Z) (r : Response)
    (data : JSValue) (w : World) (st : State) :
  form_password (formData st) = form_confirmPassword (formData st) ->
  (5 <= passwordStrength st)%nat ->
  status r = 401 \/ status r = 403 -> json r = Normal data ->
  let run := handleSubmit now later (Responds r) w st in
  messages (form_messages (snd run))
  = messages (form_messages st)
    ++ [{| msg_id := later; msg_message := "Registration successful! Please log in.";
           msg_type := "success" |}]
  /\ formData (snd run) = empty_form
  /\ switch_timers (snd run) = switch_timers st ++ [later + 2000]
  /\ form_loading (snd run) = false
  /\ localStorage (fst run) = delete "user" (delete "token" (localStorage w))
  /\ localStorage (fst run) !! "token" = None
  /\ localStorage (fst run) !! "user" = None
  /\ user (fst run) = user w
  /\ reloads (fst run) = S (reloads w).
Proof.
  intros Hsame Hstrong Hs Hjson. cbv zeta. unfold handleSubmit.
  rewrite Hsame, String.eqb_refl. simpl.
  destruct (Nat.ltb_spec (passwordStrength st) 5) as [Hweak|_]; [lia|].
  rewrite apiRequest_run. cbv zeta.
  rewrite Hjson, (auth_failure_not_ok r Hs), (proj2 (auth_failure_status _) Hs).
  simpl. repeat split.
  - rewrite lookup_delete_ne by done. apply lookup_delete_eq.
  - apply lookup_delete_eq.
Qed.

End FormFacts.

Section FormExamples.
#[local] Existing Instance Fixture.host.

(** A successful login, and a 200 whose body is the empty object. *)
Lemma login_form_signs_in_witness :
  let run := LoginForm.handleSubmit (Fixture.now + 80)
               (Responds (Samples.success Samples.login_body)) (startup ∅)
               Samples.login_form in
  let bare := LoginForm.handleSubmit (Fixture.now + 80)
                (Responds (Samples.success (JObject []))) (startup ∅)
                Samples.login_form in
  localStorage (fst run) !! "token" = Some Fixture.valid_token
  /\ user (fst run) = Fixture.profile
  /\ localStorage (fst bare) !! "token" = Some "undefined"
  /\ truthy (user (fst bare)) = true.
Proof.
  intros run bare.
  destruct (login_form_signs_in (Fixture.now + 80) (Samples.success Samples.login_body)
              [("token", JString Fixture.valid_token);
               ("user", JObject [("name", JString "Pat")]);
               ("role", JString "patient")]
              Fixture.valid_token (startup ∅) Samples.login_form
              eq_refl eq_refl (or_introl eq_refl))
    as (Htoken & Huser & _).
  destruct (login_form_signs_in (Fixture.now + 80) (Samples.success (JObject []))
              [] "undefined" (startup ∅) Samples.login_form
              eq_refl eq_refl (or_intror (conj eq_refl eq_refl)))
    as (Hbare & _ & _ & _ & Hactive & _).
  split; [exact Htoken|split; [exact Huser|split; [exact Hbare|exact Hactive]]].
Defined.

(** Wrong credentials answered with a 400 and the error envelope. *)
Lemma login_form_reports_failure_witness :
  let run := LoginForm.handleSubmit (Fixture.now + 80)
               (Responds (Fixture.bad_request (Fixture.error_envelope "Invalid credentials")))
               (startup ∅) Samples.login_form in
  user (fst run) = JNull
  /\ messages (LoginForm.form_messages (snd run))
     = [{| msg_id := Fixture.now + 80; msg_message := "Invalid credentials";
           msg_type := "error" |}].
Proof.
  intros run.
  destruct (login_form_reports_failure (Fixture.now + 80)
              (Responds (Fixture.bad_request (Fixture.error_envelope "Invalid credentials")))
              {| name := "Error"; message := "Invalid credentials" |}
              (startup ∅) Samples.login_form eq_refl)
    as (_ & Huser & Hmessages & _).
  split; [exact Huser|exact Hmessages].
Defined.

(** Wrong credentials answered with a 401. *)
Lemma login_form_unauthorized_witness :
  let run := LoginForm.handleSubmit (Fixture.now + 80)
               (Responds Samples.invalid_credentials) Fixture.signed_in
               Samples.login_form in
  messages (LoginForm.form_messages (snd run))
  = [{| msg_id := Fixture.now + 80;
        msg_message := "Cannot read properties of undefined (reading 'token')";
        msg_type := "error" |}]
  /\ reloads (fst run) = 1%nat.
Proof.
  intros run.
  destruct (login_form_unauthorized (Fixture.now + 80) Samples.invalid_credentials
              (Fixture.error_envelope "Invalid credentials") Fixture.signed_in
              Samples.login_form)
    as (Hmessages & _ & _ & _ & Hreloads); [by left|reflexivity|].
  split; [exact Hmessages|exact Hreloads].
Defined.

(** The sample registration is sent; with a mistyped confirmation it is
    not. *)
Lemma registration_sent_iff_witness :
  map req_url
    (fetched (fst (RegisterForm.handleSubmit Fixture.now (Fixture.now + 120)
                     (Responds Fixture.created) (startup ∅)
                     (RegisterForm.syncStrength Fixture.filled_form))))
  = ["http://localhost:5000/api/register"]
  /\ fst (RegisterForm.handleSubmit Fixture.now (Fixture.now + 120)
            (Responds Fixture.created) (startup ∅)
            (RegisterForm.syncStrength Fixture.mistyped_form))
     = startup ∅.
Proof.
  assert (Hascii : forall s : string,
            forallb (fun c => (N_of_ascii c <? 128)%N) (String.list_ascii_of_string s)
            = true ->
            forall c, In c (String.list_ascii_of_string s) -> (N_of_ascii c < 128)%N).
  { intros s Hall c Hin. apply N.ltb_lt. revert c Hin. by apply forallb_forall. }
  split.
  - destruct (registration_sent_iff Fixture.now (Fixture.now + 120)
                (Responds Fixture.created) (startup ∅)
                (RegisterForm.syncStrength Fixture.filled_form)
                (Hascii (RegisterForm.form_password (RegisterForm.formData Fixture.filled_form))
                   eq_refl)
                eq_refl)
      as [Hsent _].
    rewrite Hsent; [reflexivity|].
    split; [reflexivity|]. split; [vm_compute; lia|].
    split; [exists "a"%char|split; [exists "P"%char|split; [exists "0"%char|exists "!"%char]]];
      vm_compute; intuition (discriminate || lia).
  - destruct (registration_sent_iff Fixture.now (Fixture.now + 120)
                (Responds Fixture.created) (startup ∅)
                (RegisterForm.syncStrength Fixture.mistyped_form)
                (Hascii (RegisterForm.form_password (RegisterForm.formData Fixture.mistyped_form))
                   eq_refl)
                eq_refl)
      as [_ Hkept].
    apply Hkept. intros [Hsame _]. vm_compute in Hsame. discriminate.
Defined.

(** The sample registration answered with a 403. *)
Lemma registration_unauthorized_reads_success_witness :
  let run := RegisterForm.handleSubmit Fixture.now (Fixture.now + 120)
               (Responds Fixture.forbidden) Fixture.signed_in
               (RegisterForm.syncStrength Fixture.filled_form) in
  map msg_message (messages (RegisterForm.form_messages (snd run)))
  = ["Registration successful! Please log in."]
  /\ localStorage (fst run) = ∅
  /\ reloads (fst run) = 1%nat.
Proof.
  intros run.
  destruct (registration_unauthorized_reads_success Fixture.now (Fixture.now + 120)
              Fixture.forbidden (Fixture.error_envelope "Admin access required")
              Fixture.signed_in (RegisterForm.syncStrength Fixture.filled_form))
    as (Hmessages & _ & _ & _ & Hstorage & _ & _ & _ & Hreloads);
    [reflexivity|vm_compute; lia|by right|reflexivity|].
  split; [fold run in Hmessages; by rewrite Hmessages|].
  split; [|exact Hreloads].
  fold run in Hstorage. rewrite Hstorage. apply map_eq. intros k.
  destruct (decide (k = "user")) as [->|Huser]; [by rewrite lookup_delete_eq|].
  rewrite lookup_delete_ne by done.
  destruct (decide (k = "token")) as [->|Htoken]; [by rewrite lookup_delete_eq|].
  rewrite lookup_delete_ne by done. unfold Fixture.signed_in, Fixture.session. simpl.
  by rewrite !lookup_insert_ne.
Defined.

End FormExamples.

(** ** The lifetime of a notice *)

Section MessageLifetime.
Import MessageEvents.

Lemma advance_timers (t : Z) (st : MessagesState) :
  timers (advance t st)
  = List.filter (fun timer => negb (fst timer <=? t)) (timers st).
Proof.
  unfold advance.
  by destruct (expire_batch (List.filter (fun timer => fst timer <=? t) (timers st))
                 {| messages := messages st;
                    timers := List.filter (fun timer => negb (fst timer <=? t))
                                (timers st) |}) as [-> _].
Qed.

(** Every pending timeout is due five seconds after the identifier it
    captured, whatever happened to the hook. *)
Lemma timers_five_seconds (events : list Event) :
  Forall (fun timer => fst timer = snd timer + 5000) (timers (play events)).
Proof.
  unfold play.
  assert (Hgen : forall st,
             Forall (fun timer => fst timer = snd timer + 5000) (timers st) ->
             Forall (fun timer => fst timer = snd timer + 5000)
               (timers (fold_left apply_event events st))).
  { induction events as [|ev events IH]; intros st Hst; [exact Hst|].
    cbn [fold_left]. apply IH. destruct ev as [now message type|id| |t]; simpl.
    - apply Forall_app. split; [exact Hst|]. by apply Forall_singleton.
    - exact Hst.
    - exact Hst.
    - rewrite advance_timers. apply Forall_forall. intros timer Hin.
      apply list_elem_of_In, filter_In in Hin as [Hin _].
      by apply (proj1 (Forall_forall _ _) Hst), list_elem_of_In. }
  apply Hgen. constructor.
Qed.

(** X19. A notice lives five seconds: after any history of the hook, a
    notice added when the clock reads [now] is still listed at every time
    before [now + 5000] and is listed at no time from [now + 5000] on,
    when nothing dismisses it in between. *)
Theorem notice_lifetime (events : list Event) (now t : Z) (message type : string) :
  let st := addMessage now message type (play events) in
  (t < now + 5000 ->
   {| msg_id := now; msg_message := message; msg_type := type |}
   ∈ messages (advance t st))
  /\ (now + 5000 <= t ->
      forall m, m ∈ messages (advance t st) -> msg_id m ≠ now).
Proof.
  cbv zeta. split.
  - intros Hearly. unfold advance. apply expire_batch. split.
    + cbn [addMessage messages]. apply elem_of_app. right. by left.
    + intros timer Hdue. cbn [msg_id].
      apply list_elem_of_In, filter_In in Hdue as [Hin Hle].
      apply Z.leb_le in Hle. cbn [addMessage timers] in Hin.
      apply in_app_or in Hin as [Hold|Hnew].
      * pose proof (timers_five_seconds events) as Hwf.
        apply list_elem_of_In in Hold.
        apply (proj1 (Forall_forall _ _) Hwf) in Hold. lia.
      * destruct Hnew as [<-|[]]. simpl in Hle. lia.
  - intros Hlate m Hm. unfold advance in Hm.
    apply expire_batch in Hm as [_ Hall]. apply (Hall (now + 5000, now)).
    apply list_elem_of_In, filter_In. split.
    + cbn [addMessage timers]. apply in_or_app. right. by left.
    + simpl. apply Z.leb_le. lia.
Qed.

(** X20. Dismissal is idempotent and order does not matter: dismissing an
    identifier twice is dismissing it once, two dismissals commute, and
    a dismissal after the timeout of the same identifier has run changes
    nothing. *)
Theorem dismissal_is_idempotent (a b : Z) (st : MessagesState) :
  removeMessage a (removeMessage a st) = removeMessage a st
  /\ removeMessage a (removeMessage b st) = removeMessage b (removeMessage a st)
  /\ removeMessage a (expire a st) = expire a st.
Proof.
  assert (Hidem : forall l, without a (without a l) = without a l).
  { intros l. unfold without. induction l as [|m l IH]; [reflexivity|].
    simpl. destruct (negb (msg_id m =? a)) eqn:Hm; simpl; [rewrite Hm|]; by rewrite ?IH. }
  assert (Hcomm : forall l, without a (without b l) = without b (without a l)).
  { intros l. unfold without. induction l as [|m l IH]; [reflexivity|].
    simpl. destruct (negb (msg_id m =? a)) eqn:Ha, (negb (msg_id m =? b)) eqn:Hb;
      simpl; rewrite ?Ha, ?Hb, ?IH; reflexivity. }
  unfold removeMessage, expire. simpl. by rewrite Hidem, Hcomm.
Qed.

End MessageLifetime.

(** A notice shown after an earlier one has expired, a little before and a
    little after its five seconds. *)
Lemma notice_lifetime_witness :
  let earlier := [MessageEvents.Add 1700000000000 "Slot booked successfully!" "success";
                  MessageEvents.Tick 1700000006000] in
  let st := addMessage 1700000009000 "Booking cancelled successfully!" "success"
              (MessageEvents.play earlier) in
  {| msg_id := 1700000009000; msg_message := "Booking cancelled successfully!";
     msg_type := "success" |} ∈ messages (advance 1700000013900 st)
  /\ forall m, m ∈ messages (advance 1700000014100 st) -> msg_id m ≠ 1700000009000.
Proof.
  intros earlier st.
  destruct (notice_lifetime earlier 1700000009000 1700000013900
              "Booking cancelled successfully!" "success") as [Hearly _].
  destruct (notice_lifetime earlier 1700000009000 1700000014100
              "Booking cancelled successfully!" "success") as [_ Hlate].
  split; [apply Hearly; done|apply Hlate; done].
Defined.

(** ** Slots and bookings *)

Section SlotFacts.
Context `{Dates}.
Import Slots.

Lemma hours_at_most_24 (diff : Z) :
  QArith_base.Qle_bool
    (QArith_base.Qdiv (QArith_base.inject_Z diff) (QArith_base.inject_Z (1000 * 60 * 60)))
    (QArith_base.inject_Z 24) = true
  <-> diff <= 86400000.
Proof.
  rewrite QArith_base.Qle_bool_iff.
  unfold QArith_base.Qle, QArith_base.Qdiv, QArith_base.Qmult, QArith_base.Qinv,
    QArith_base.inject_Z. simpl. lia.
Qed.

Lemma hours_at_most_0 (diff : Z) :
  QArith_base.Qle_bool
    (QArith_base.Qdiv (QArith_base.inject_Z diff) (QArith_base.inject_Z (1000 * 60 * 60)))
    (QArith_base.inject_Z 0) = true
  <-> diff <= 0.
Proof.
  rewrite QArith_base.Qle_bool_iff.
  unfold QArith_base.Qle, QArith_base.Qdiv, QArith_base.Qmult, QArith_base.Qinv,
    QArith_base.inject_Z. simpl. lia.
Qed.

Lemma isSlotInPast_spec (dateStr : string) (now : Z) :
  isSlotInPast dateStr now = true <-> exists t, Date_parse dateStr = Num t /\ t <= now.
Proof.
  unfold isSlotInPast, le. destruct (Date_parse dateStr) as [|t].
  - split; [discriminate|]. by intros (t & ? & _).
  - rewrite Z.leb_le. split; [by exists t|]. by intros (t' & [= <-] & ?).
Qed.

Lemma isSlotSoon_spec (dateStr : string) (now : Z) :
  isSlotSoon dateStr now = true
  <-> exists t, Date_parse dateStr = Num t /\ now < t <= now + 86400000.
Proof.
  unfold isSlotSoon, sub. destruct (Date_parse dateStr) as [|t].
  - split; [discriminate|]. by intros (t & ? & _).
  - cbv zeta. rewrite andb_true_iff, negb_true_iff, hours_at_most_24.
    rewrite <- not_true_iff_false, hours_at_most_0.
    split.
    + intros [Hle Hgt]. exists t. split; [done|lia].
    + intros (t' & [= <-] & ?). lia.
Qed.

(** X21. A slot is past when its start parses to a time not later than
    the clock, and soon when it parses to a time after the clock and at
    most twenty-four hours ahead; an unparseable start is neither. So no
    card is both past and soon: a card with the badge [Soon!] is disabled
    only while it is being booked, and a card labelled [Past] is always
    disabled. *)
Theorem slot_card_states {Id : Type} (slot : Slot Id) (isBooking : bool) (now : Z) :
  (isSlotInPast (startAt slot) now = true
   <-> exists t, Date_parse (startAt slot) = Num t /\ t <= now)
  /\ (isSlotSoon (startAt slot) now = true
      <-> exists t, Date_parse (startAt slot) = Num t /\ now < t <= now + 86400000)
  /\ (Date_parse (startAt slot) = NaN ->
      isSlotInPast (startAt slot) now = false /\ isSlotSoon (startAt slot) now = false)
  /\ (card_soon (SlotCard slot isBooking now) = true ->
      card_disabled (SlotCard slot isBooking now) = isBooking)
  /\ (card_label (SlotCard slot isBooking now) = "Past" ->
      card_disabled (SlotCard slot isBooking now) = true).
Proof.
  split; [apply isSlotInPast_spec|]. split; [apply isSlotSoon_spec|]. split; [|split].
  - intros Hnan. unfold isSlotInPast, isSlotSoon. by rewrite Hnan.
  - simpl. intros Hsoon. apply isSlotSoon_spec in Hsoon as (t & Ht & Hrange).
    destruct (isSlotInPast (startAt slot) now) eqn:Hpast; [|reflexivity].
    apply isSlotInPast_spec in Hpast as (t' & Ht' & Hle). rewrite Ht in Ht'.
    injection Ht' as <-. lia.
  - simpl. destruct isBooking; [discriminate|].
    destruct (isSlotInPast (startAt slot) now); [reflexivity|discriminate].
Qed.

Lemma classify_from {Id : Type} (now : Z) (bookings up past : list (Booking Id)) :
  fold_left
    (fun acc booking =>
       if gt (Date_parse (startAt (booking_slot booking))) (Num now)
       then (acc.1 ++ [booking], acc.2)
       else (acc.1, acc.2 ++ [booking]))
    bookings (up, past)
  = (up ++ List.filter
             (fun booking => gt (Date_parse (startAt (booking_slot booking))) (Num now))
             bookings,
     past ++ List.filter
               (fun booking =>
                  negb (gt (Date_parse (startAt (booking_slot booking))) (Num now)))
               bookings).
Proof.
  revert up past. induction bookings as [|b bookings IH]; intros up past.
  - simpl. by rewrite !app_nil_r.
  - cbn [fold_left List.filter].
    destruct (gt (Date_parse (startAt (booking_slot b))) (Num now)); simpl;
      rewrite IH; by rewrite <- app_assoc.
Qed.

(** X22. The split into upcoming and past bookings loses nothing and
    keeps the order: the upcoming list holds, in order, the bookings whose
    start parses to a time after the clock, the past list all the others,
    and the two counts add up to the total. A booking in the upcoming list
    is never past for [isSlotInPast]; one whose start does not parse is
    counted with the past ones although [isSlotInPast] calls it not
    past. *)
Theorem bookings_are_partitioned {Id : Type} (now : Z) (bookings : list (Booking Id)) :
  let upcoming booking := gt (Date_parse (startAt (booking_slot booking))) (Num now) in
  fst (classify now bookings) = List.filter upcoming bookings
  /\ snd (classify now bookings) = List.filter (fun b => negb (upcoming b)) bookings
  /\ (length (fst (classify now bookings)) + length (snd (classify now bookings))
      = length bookings)%nat
  /\ (forall b, In b (fst (classify now bookings)) ->
        isSlotInPast (startAt (booking_slot b)) now = false)
  /\ (forall b, In b bookings -> Date_parse (startAt (booking_slot b)) = NaN ->
        In b (snd (classify now bookings))
        /\ isSlotInPast (startAt (booking_slot b)) now = false).
Proof.
  cbv zeta. unfold classify. rewrite classify_from. simpl.
  split; [done|]. split; [done|]. split; [|split].
  - induction bookings as [|b bookings IH]; [reflexivity|]. simpl.
    destruct (gt _ _); simpl; lia.
  - intros b Hin. apply filter_In in Hin as [_ Hup].
    unfold isSlotInPast, le. unfold gt in Hup.
    destruct (Date_parse (startAt (booking_slot b))) as [|t]; [done|].
    apply Z.ltb_lt in Hup. apply Z.leb_gt. lia.
  - intros b Hin Hnan. split.
    + apply filter_In. split; [done|]. by rewrite Hnan.
    + unfold isSlotInPast. by rewrite Hnan.
Qed.

End SlotFacts.

Section HandlerFacts.
Context `{Host} {Id : Type} `{EqDecision Id}.
Variable id_value : Id -> JSValue.
Import Slots.

(** X23. Booking a slot sends one request to [/book]. When the gateway
    returns, every slot with the booked identifier leaves the list and the
    others stay in order, with a success notice; when it throws, the list
    is unchanged and the notice is the error's message. In both cases no
    slot is marked as being booked any more. *)
Theorem booked_slot_leaves_list (slotId : Id) (later : Z) (reply : FetchReply)
    (w : World) (st : SlotsState) :
  let call := apiRequest "/book" (CallSites.options_of (CallSites.Book (id_value slotId)))
                reply w in
  let run := handleBookSlot id_value slotId later reply w st in
  fst run = fst call
  /\ map req_url (fetched (fst run)) = map req_url (fetched w) ++ [API_URL +:+ "/book"]
  /\ bookingSlot (snd run) = None
  /\ (forall v, snd call = Normal v ->
        (forall slot, In slot (slots (snd run))
                      <-> In slot (slots st) /\ slot_id slot ≠ slotId)
        /\ slots (snd run)
           = List.filter (fun slot => negb (bool_decide (slot_id slot = slotId))) (slots st)
        /\ messages (slots_messages (snd run))
           = messages (slots_messages st)
             ++ [{| msg_id := later; msg_message := "Slot booked successfully!";
                    msg_type := "success" |}])
  /\ (forall err, snd call = Throw err ->
        slots (snd run) = slots st
        /\ messages (slots_messages (snd run))
           = messages (slots_messages st)
             ++ [{| msg_id := later; msg_message := message err; msg_type := "error" |}]).
Proof.
  cbv zeta. unfold handleBookSlot.
  change (CallSites.endpoint_of (CallSites.Book (id_value slotId))) with "/book".
  pose proof (apiRequest_fetched "/book"
                (CallSites.options_of (CallSites.Book (id_value slotId))) reply w)
    as Hfetched.
  destruct (apiRequest "/book" _ reply w) as [w' outcome]. simpl in *.
  split; [done|]. split; [by rewrite Hfetched, map_app|].
  split; [by destruct outcome|]. split.
  - intros v ->. simpl. split; [|done].
    intros slot. rewrite filter_In, negb_true_iff, bool_decide_eq_false. done.
  - by intros err ->.
Qed.

(** X24. Cancelling a booking sends one [DELETE] to [/bookings/<id>].
    When the gateway returns, every booking with that identifier leaves
    the list and the others stay in order, with a success notice; when it
    throws, the list is unchanged and the notice is the error's message.
    In both cases no booking is marked as being cancelled any more. *)
Theorem cancelled_booking_leaves_list (bookingId : Id) (later : Z) (reply : FetchReply)
    (w : World) (st : BookingsState) :
  let call := apiRequest ("/bookings/" +:+ ToString (id_value bookingId))
                {| opt_method := Some "DELETE"; opt_headers := None; opt_body := None |}
                reply w in
  let run := handleCancelBooking id_value bookingId later reply w st in
  fst run = fst call
  /\ map req_url (fetched (fst run))
     = map req_url (fetched w)
       ++ [API_URL +:+ "/bookings/" +:+ ToString (id_value bookingId)]
  /\ map req_method (fetched (fst run)) = map req_method (fetched w) ++ [Some "DELETE"]
  /\ cancellingBooking (snd run) = None
  /\ (forall v, snd call = Normal v ->
        (forall booking, In booking (bookings (snd run))
                         <-> In booking (bookings st) /\ booking_id booking ≠ bookingId)
        /\ messages (bookings_messages (snd run))
           = messages (bookings_messages st)
             ++ [{| msg_id := later; msg_message := "Booking cancelled successfully!";
                    msg_type := "success" |}])
  /\ (forall err, snd call = Throw err ->
        bookings (snd run) = bookings st
        /\ messages (bookings_messages (snd run))
           = messages (bookings_messages st)
             ++ [{| msg_id := later; msg_message := message err; msg_type := "error" |}]).
Proof.
  cbv zeta. unfold handleCancelBooking.
  change (CallSites.endpoint_of (CallSites.CancelBooking (id_value bookingId)))
    with ("/bookings/" +:+ ToString (id_value bookingId)).
  change (CallSites.options_of (CallSites.CancelBooking (id_value bookingId)))
    with {| opt_method := Some "DELETE"; opt_headers := None; opt_body := None |}.
  pose proof (apiRequest_fetched ("/bookings/" +:+ ToString (id_value bookingId))
                {| opt_method := Some "DELETE"; opt_headers := None; opt_body := None |}
                reply w) as Hfetched.
  destruct (apiRequest _ _ reply w) as [w' outcome]. simpl in *.
  split; [done|]. split; [by rewrite Hfetched, map_app|].
  split; [by rewrite Hfetched, map_app|].
  split; [by destruct outcome|]. split.
  - intros v ->. simpl. split; [|done].
    intros booking. rewrite filter_In, negb_true_iff, bool_decide_eq_false. done.
  - by intros err ->.
Qed.

End HandlerFacts.

(** ** Slots grouped by day *)

Section GroupingFacts.
Context `{Dates} `{ArraySort} {Id : Type}.
Import Slots Grouping.

(** What the groups hold after a number of rounds: under each day, in the
    order of arrival, the slots of that day seen so far, and no empty
    group. *)
Lemma push_slot_grouped (groups groups' : gmap string (list (Slot Id)))
    (seen : list (Slot Id)) (slot : Slot Id) :
  (forall date, groups !! date
                = match filter (fun s => date_of s = date) seen with
                  | [] => None
                  | group => Some group
                  end) ->
  push_slot groups slot = Normal groups' ->
  forall date, groups' !! date
               = match filter (fun s => date_of s = date) (seen ++ [slot]) with
                 | [] => None
                 | group => Some group
                 end.
Proof.
  intros Hseen Hpush date. unfold push_slot in Hpush. rewrite filter_app.
  assert (Hnew : groups' = <[date_of slot :=
                              filter (fun s => date_of s = date_of slot) seen ++ [slot]]>
                             groups).
  { rewrite Hseen in Hpush.
    destruct (filter (fun s => date_of s = date_of slot) seen) as [|s group].
    - destruct (bool_decide _); [discriminate|]. by injection Hpush as <-.
    - by injection Hpush as <-. }
  subst groups'.
  destruct (decide (date_of slot = date)) as [<-|Hother].
  - rewrite lookup_insert_eq, filter_cons_True, filter_nil by done.
    by destruct (filter _ seen).
  - rewrite lookup_insert_ne, filter_cons_False, filter_nil, app_nil_r by done.
    apply Hseen.
Qed.

Lemma collect_grouped (slots seen : list (Slot Id))
    (groups groups' : gmap string (list (Slot Id))) :
  (forall date, groups !! date
                = match filter (fun s => date_of s = date) seen with
                  | [] => None
                  | group => Some group
                  end) ->
  collect groups slots = Normal groups' ->
  forall date, groups' !! date
               = match filter (fun s => date_of s = date) (seen ++ slots) with
                 | [] => None
                 | group => Some group
                 end.
Proof.
  revert seen groups. induction slots as [|slot slots IH]; intros seen groups Hseen Hrun.
  - injection Hrun as <-. by rewrite app_nil_r.
  - cbn [collect] in Hrun. run.
    destruct (push_slot groups slot) as [pushed|e] eqn:Hpush; [|discriminate].
    rewrite (assoc_L (++) seen [slot] slots : seen ++ slot :: slots = (seen ++ [slot]) ++ slots).
    apply (IH (seen ++ [slot]) pushed); [|done].
    by apply (push_slot_grouped groups).
Qed.

Lemma StronglySorted_weaken {A : Type} (R R' : A -> A -> Prop) (l : list A) :
  (forall a b, R a b -> R' a b) ->
  Sorted.StronglySorted R l -> Sorted.StronglySorted R' l.
Proof.
  intros Himpl Hsorted. induction Hsorted as [|x l Hl IH Hx]; constructor; [done|].
  eapply Forall_impl; [exact Hx|]. intros b. apply Himpl.
Qed.

(** X25. When the grouping returns, the groups are the days of the
    listed slots: under each day stand exactly the slots whose start has
    that day before its [T] (none is lost, repeated or misplaced, and no
    group is empty), and a group whose starts all parse is in the order of
    the start times. *)
Theorem slots_grouped_by_day (slots : list (Slot Id))
    (groups : gmap string (list (Slot Id))) :
  groupedSlots slots = Normal groups ->
  (forall date group, groups !! date = Some group ->
     group ≠ [] /\ group ≡ₚ filter (fun slot => date_of slot = date) slots)
  /\ (forall slot, slot ∈ slots ->
        exists group, groups !! date_of slot = Some group /\ slot ∈ group)
  /\ (forall date group, groups !! date = Some group ->
        (forall slot, slot ∈ group -> Date_parse (startAt slot) ≠ NaN) ->
        Sorted.StronglySorted
          (fun a b => forall ta tb,
             Date_parse (startAt a) = Num ta -> Date_parse (startAt b) = Num tb ->
             (ta <= tb)%Z)
          group).
Proof.
  unfold groupedSlots. intros Hrun.
  destruct (collect ∅ slots) as [collected|e] eqn:Hcollect; [|discriminate].
  injection Hrun as <-.
  pose proof (collect_grouped slots [] ∅ collected (fun date => lookup_empty date) Hcollect)
    as Hgroups. simpl in Hgroups.
  assert (Hlookup : forall date group,
             (sort by_start <$> collected) !! date = Some group ->
             filter (fun slot => date_of slot = date) slots ≠ []
             /\ group = sort by_start (filter (fun slot => date_of slot = date) slots)).
  { intros date group. rewrite lookup_fmap, Hgroups.
    destruct (filter _ slots) as [|s l]; [discriminate|].
    intros [= <-]. done. }
  split; [|split].
  - intros date group Hgroup. apply Hlookup in Hgroup as [Hne ->].
    split; [|apply sort_permutation].
    intros Hnil. apply Hne. apply Permutation_nil_r.
    by rewrite <- (sort_permutation _ by_start), Hnil.
  - intros slot Hin. rewrite lookup_fmap, Hgroups.
    assert (Hmember : slot ∈ filter (fun s => date_of s = date_of slot) slots)
      by (by apply list_elem_of_filter).
    destruct (filter _ slots) as [|s l] eqn:Hfilter; [by apply elem_of_nil in Hmember|].
    eexists. split; [reflexivity|]. by rewrite sort_permutation.
  - intros date group Hgroup Hvalid. apply Hlookup in Hgroup as [_ ->].
    apply (StronglySorted_weaken
             (fun a b => (match Date_parse (startAt a) with Num t => t | NaN => 0 end
                          <= match Date_parse (startAt b) with Num t => t | NaN => 0 end)%Z)).
    + intros a b Hle ta tb Ha Hb. by rewrite Ha, Hb in Hle.
    + apply (sort_ascending _
               (fun s => match Date_parse (startAt s) with Num t => t | NaN => 0%Z end)).
      intros a b Ha Hb. unfold by_start, sub.
      pose proof (Hvalid a) as Hva. pose proof (Hvalid b) as Hvb.
      rewrite sort_permutation in Hva, Hvb.
      specialize (Hva Ha). specialize (Hvb Hb).
      by destruct (Date_parse (startAt a)), (Date_parse (startAt b)).
Qed.

(** The days seen so far are no inherited names as long as no round has
    thrown. *)
Lemma collect_outcome (slots seen : list (Slot Id))
    (groups : gmap string (list (Slot Id))) :
  (forall date, groups !! date
                = match filter (fun s => date_of s = date) seen with
                  | [] => None
                  | group => Some group
                  end) ->
  Forall (fun s => date_of s ∉ Object_prototype_keys) seen ->
  (Forall (fun s => date_of s ∉ Object_prototype_keys) slots ->
   exists groups', collect groups slots = Normal groups')
  /\ (Exists (fun s => date_of s ∈ Object_prototype_keys) slots ->
      collect groups slots = Throw push_is_not_a_function).
Proof.
  revert seen groups. induction slots as [|slot slots IH]; intros seen groups Hseen Hgood.
  - split; [by eexists|]. intros Hbad. by apply Exists_nil in Hbad.
  - cbn [collect]. run.
    destruct (decide (date_of slot ∈ Object_prototype_keys)) as [Hbad|Hok].
    + assert (Hthrow : push_slot groups slot = Throw push_is_not_a_function).
      { unfold push_slot. rewrite Hseen.
        destruct (filter (fun s => date_of s = date_of slot) seen) as [|s l] eqn:Hfilter.
        - by rewrite bool_decide_eq_true_2.
        - exfalso.
          assert (Hs : s ∈ filter (fun s => date_of s = date_of slot) seen)
            by (rewrite Hfilter; by left).
          apply list_elem_of_filter in Hs as [Hdate Hs].
          apply (proj1 (Forall_forall _ _) Hgood) in Hs. congruence. }
      rewrite Hthrow. split; [|done].
      intros Hall. apply Forall_cons in Hall as [Hslot _]. done.
    + assert (Hpush : exists pushed, push_slot groups slot = Normal pushed).
      { unfold push_slot. destruct (groups !! date_of slot); [by eexists|].
        rewrite bool_decide_eq_false_2 by done. by eexists. }
      destruct Hpush as [pushed Hpush]. rewrite Hpush.
      destruct (IH (seen ++ [slot]) pushed) as [Hnormal Hthrow].
      * by apply (push_slot_grouped groups).
      * apply Forall_app. split; [done|]. by apply Forall_singleton.
      * split.
        -- intros Hall. apply Forall_cons in Hall as [_ Hall]. by apply Hnormal.
        -- intros Hex. apply Exists_cons in Hex as [Hslot|Hrest]; [done|].
           by apply Hthrow.
Qed.

(** X26. The grouping throws exactly when some slot's day is a name that
    every object inherits ([constructor], [toString], [__proto__] and
    the like): [groups[date]] is then truthy without being an array, and
    [push] is not a function. For every other list it returns. *)
Theorem grouping_throws_iff (slots : list (Slot Id)) :
  (Exists (fun slot => date_of slot ∈ Object_prototype_keys) slots
   <-> groupedSlots slots = Throw push_is_not_a_function)
  /\ (Forall (fun slot => date_of slot ∉ Object_prototype_keys) slots
      <-> exists groups, groupedSlots slots = Normal groups).
Proof.
  destruct (collect_outcome slots [] ∅ (fun date => lookup_empty date) (Forall_nil_2 _))
    as [Hnormal Hthrow].
  unfold groupedSlots.
  destruct (decide (Exists (fun slot => date_of slot ∈ Object_prototype_keys) slots))
    as [Hbad|Hgood].
  - rewrite (Hthrow Hbad). split; [done|]. split.
    + intros Hall. exfalso. apply Exists_exists in Hbad as (s & Hs & Hkey).
      by apply (proj1 (Forall_forall _ _) Hall) in Hs.
    + by intros [groups ?].
  - assert (Hall : Forall (fun slot => date_of slot ∉ Object_prototype_keys) slots).
    { apply Forall_forall. intros s Hs Hkey. apply Hgood. apply Exists_exists. eauto. }
    destruct (Hnormal Hall) as [groups ->]. split; split; try done.
    by eexists.
Qed.

End GroupingFacts.

Section SlotExamples.
#[local] Existing Instance Engine.array_sort.
#[local] Existing Instance Engine.dates.
Import Slots Grouping.

(** Three slots of two days, listed out of order. *)
Lemma slots_grouped_by_day_witness :
  groupedSlots Engine.week
  = Normal (<["2024-01-01" := [Engine.slot 1 "2024-01-01T09:00:00.000Z";
                               Engine.slot 3 "2024-01-01T15:00:00.000Z"]]>
              (<["2024-01-02" := [Engine.slot 4 "2024-01-02T09:00:00.000Z"]]> ∅))
  /\ [Engine.slot 1 "2024-01-01T09:00:00.000Z"; Engine.slot 3 "2024-01-01T15:00:00.000Z"]
     ≡ₚ filter (fun slot => date_of slot = "2024-01-01") Engine.week.
Proof.
  assert (Hrun : groupedSlots Engine.week
                 = Normal (<["2024-01-01" := [Engine.slot 1 "2024-01-01T09:00:00.000Z";
                                              Engine.slot 3 "2024-01-01T15:00:00.000Z"]]>
                             (<["2024-01-02" := [Engine.slot 4 "2024-01-02T09:00:00.000Z"]]>
                                ∅)))
    by (vm_compute; reflexivity).
  split; [exact Hrun|].
  destruct (slots_grouped_by_day Engine.week _ Hrun) as (Hgroups & _ & _).
  apply (Hgroups "2024-01-01"). reflexivity.
Defined.

(** The cards of a slot an hour ahead and of one an hour ago. *)
Example slot_cards :
  SlotCard (Engine.slot 1 "2024-01-01T09:00:00.000Z") false 1704096000000
  = {| card_disabled := false; card_label := "Book Slot"; card_soon := true |}
  /\ SlotCard (Engine.slot 1 "2024-01-01T09:00:00.000Z") false 1704103200000
     = {| card_disabled := true; card_label := "Past"; card_soon := false |}.
Proof. split; reflexivity. Qed.

End SlotExamples.

(** ** The administrator's list *)

Section AdminFacts.
Context `{Host}.
Import Admin.

Lemma lookup_copy (k : string) (props : list (string * JSValue)) :
  NoDup (map fst props) ->
  lookup_prop k (spread [] (JObject props)) = lookup_prop k props.
Proof.
  intros Hnd. unfold spread. simpl. rewrite lookup_spread_into by done.
  destruct (decide (k ∈ map fst props)) as [Hin|Hin]; [done|].
  by rewrite (lookup_prop_absent k props Hin).
Qed.

Lemma fetchAllBookings_run (page : JSValue) (later : Z) (r : Response) (data : JSValue)
    (w : World) (st : State) :
  ok r = true -> json r = Normal data ->
  fst (fetchAllBookings page later (Responds r) w st)
  = add_fetched
      (issued (CallSites.endpoint_of
                 (CallSites.AllBookings
                    match page with JUndefined => JNumber (Num 1) | _ => page end
                    (lookup_prop "limit" (pagination st))))
         no_options w) w
  /\ snd (fetchAllBookings page later (Responds r) w st)
     = match
         (listed ← get_prop data "bookings";
          if truthy listed then
            envelope ← get_prop data "pagination";
            mret (listed, spread (spread [] (JObject (pagination st))) envelope)
          else
            total ← get_length data;
            mret (data,
                  set_prop "totalPages" (JNumber (Num 1))
                    (set_prop "total" total (spread [] (JObject (pagination st))))))
       with
       | Normal (listed, pages) =>
           {| bookings := listed; pagination := pages; admin_loading := false;
              admin_messages := admin_messages st |}
       | Throw err =>
           {| bookings := bookings st; pagination := pagination st;
              admin_loading := false;
              admin_messages := addError later (message err) (admin_messages st) |}
       end.
Proof.
  intros Hok Hjson. unfold fetchAllBookings, load.
  change (CallSites.options_of (CallSites.AllBookings _ _)) with no_options.
  run. rewrite apiRequest_run. cbv zeta. rewrite Hjson, Hok.
  destruct (get_prop data "bookings") as [listed|e]; [|done].
  destruct (truthy listed).
  - by destruct (get_prop data "pagination").
  - by destruct (get_length data).
Qed.

(** X27. The older format: when [/all-bookings] answers 2xx with a bare
    JSON array, the array becomes the list of bookings, the total becomes
    its number of elements and the number of pages 1, the page and the
    limit stay as they were, no notice is added and loading ends. *)
Theorem bare_array_of_bookings (page : JSValue) (later : Z) (r : Response)
    (elems : list JSValue) (w : World) (st : State) :
  ok r = true -> json r = Normal (JArray elems) ->
  NoDup (map fst (pagination st)) ->
  let st' := snd (fetchAllBookings page later (Responds r) w st) in
  bookings st' = JArray elems
  /\ lookup_prop "total" (pagination st') = JNumber (Num (Z.of_nat (length elems)))
  /\ lookup_prop "totalPages" (pagination st') = JNumber (Num 1)
  /\ lookup_prop "page" (pagination st') = lookup_prop "page" (pagination st)
  /\ lookup_prop "limit" (pagination st') = lookup_prop "limit" (pagination st)
  /\ admin_messages st' = admin_messages st
  /\ admin_loading st' = false.
Proof.
  intros Hok Hjson Hnd. cbv zeta.
  destruct (fetchAllBookings_run page later r _ w st Hok Hjson) as [_ ->].
  simpl. rewrite !lookup_set_prop. simpl. rewrite !lookup_copy by done. done.
Qed.

(** X28. The paginated format: when [/all-bookings] answers 2xx with a
    JSON object whose [bookings] is truthy (an array, even an empty one),
    that value becomes the list of bookings and the fields of the body's
    [pagination] object replace those of the same name in the state, the
    others staying as they were. *)
Theorem paginated_bookings (page : JSValue) (later : Z) (r : Response)
    (props envelope : list (string * JSValue)) (w : World) (st : State) :
  ok r = true -> json r = Normal (JObject props) ->
  truthy (lookup_prop "bookings" props) = true ->
  lookup_prop "pagination" props = JObject envelope ->
  NoDup (map fst envelope) -> NoDup (map fst (pagination st)) ->
  let st' := snd (fetchAllBookings page later (Responds r) w st) in
  bookings st' = lookup_prop "bookings" props
  /\ (forall k, lookup_prop k (pagination st')
                = if decide (k ∈ map fst envelope) then lookup_prop k envelope
                  else lookup_prop k (pagination st))
  /\ admin_messages st' = admin_messages st
  /\ admin_loading st' = false.
Proof.
  intros Hok Hjson Hlisted Henvelope Hnd Hnd'. cbv zeta.
  destruct (fetchAllBookings_run page later r _ w st Hok Hjson) as [_ ->].
  simpl. rewrite Hlisted, Henvelope. simpl.
  split; [done|]. split; [|done].
  intros k. unfold spread at 1. simpl. rewrite lookup_spread_into by done.
  destruct (decide (k ∈ map fst envelope)); [done|]. by apply lookup_copy.
Qed.

End AdminFacts.

Section AdminExamples.
#[local] Existing Instance Fixture.host.
Import Admin.

(** Two bookings sent as a bare array to a dashboard that has just
    mounted. *)
Lemma bare_array_of_bookings_witness :
  let st' := snd (fetchAllBookings JUndefined (Fixture.now + 90)
                    (Responds (Samples.success (JArray [JObject []; JObject []])))
                    Fixture.signed_in initial) in
  lookup_prop "total" (pagination st') = JNumber (Num 2)
  /\ lookup_prop "totalPages" (pagination st') = JNumber (Num 1)
  /\ lookup_prop "limit" (pagination st') = JNumber (Num 20).
Proof.
  intros st'.
  destruct (bare_array_of_bookings JUndefined (Fixture.now + 90)
              (Samples.success (JArray [JObject []; JObject []]))
              [JObject []; JObject []] Fixture.signed_in initial)
    as (_ & Htotal & Hpages & _ & Hlimit & _); [reflexivity|reflexivity| |].
  - apply NoDup_ListNoDup. repeat constructor; simpl; intuition discriminate.
  - split; [exact Htotal|split; [exact Hpages|exact Hlimit]].
Defined.

(** The second page of forty-five bookings in the paginated format. *)
Lemma paginated_bookings_witness :
  let body :=
    JObject [("bookings", JArray [JObject []]);
             ("pagination",
              JObject [("page", JNumber (Num 2)); ("total", JNumber (Num 45));
                       ("totalPages", JNumber (Num 3))])] in
  let st' := snd (fetchAllBookings (JNumber (Num 2)) (Fixture.now + 90)
                    (Responds (Samples.success body)) Fixture.signed_in initial) in
  bookings st' = JArray [JObject []]
  /\ lookup_prop "page" (pagination st') = JNumber (Num 2)
  /\ lookup_prop "limit" (pagination st') = JNumber (Num 20).
Proof.
  intros body st'.
  destruct (paginated_bookings (JNumber (Num 2)) (Fixture.now + 90)
              (Samples.success body)
              [("bookings", JArray [JObject []]);
               ("pagination",
                JObject [("page", JNumber (Num 2)); ("total", JNumber (Num 45));
                         ("totalPages", JNumber (Num 3))])]
              [("page", JNumber (Num 2)); ("total", JNumber (Num 45));
               ("totalPages", JNumber (Num 3))]
              Fixture.signed_in initial)
    as (Hlisted & Hpages & _); [reflexivity|reflexivity|reflexivity|reflexivity| | |].
  - apply NoDup_ListNoDup. repeat constructor; simpl; intuition discriminate.
  - apply NoDup_ListNoDup. repeat constructor; simpl; intuition discriminate.
  - split; [exact Hlisted|]. split.
    + etrans; [apply (Hpages "page")|reflexivity].
    + etrans; [apply (Hpages "limit")|reflexivity].
Defined.

End AdminExamples.
